(** * Talent matching dashboard (app.py): a shallow embedding

    The program is a single Streamlit script.  Its reachable logic is the
    handler of the "generate" button (form validation, parsing of the
    benchmark ids, the calls to the database and to the text API, the
    synthetic candidate data, the flagging and ranking of candidates and
    the summary analytics) and the distribution chart drawn from the
    stored results.

    Modelling choices.
    - Python floats are modelled by exact rationals ([Q]); a column of
      rates holds numbers (no NaN).  [round(x, 1)] and [round(x)] round
      to the nearest tenth / integer, ties to even.
    - Text is modelled by [string] (bytes); [str.strip] removes the ASCII
      characters Python treats as white space.
    - Exceptions are values [exn] carrying the Python class name and the
      message; a computation returns an [outcome].
    - The script's effects (session state, the random generator, the text
      shown by [st.error]/[st.warning]/[st.info], the calls made to the
      collaborators) are threaded through a state-and-exception monad
      [M]; what the outside world answers is read from an environment
      [env] of oracles. *)

From Stdlib Require Import QArith Qround ZArith List String Ascii Bool Lia Lqa.
From Stdlib Require Import Qabs Qminmax DecimalString Sorted Permutation.
Import ListNotations.

Set Warnings "-register-all".

Local Open Scope list_scope.
Local Open Scope string_scope.

(* ------------------------------------------------------------------ *)
(** ** Numbers *)

Module Num.

(** Nearest integer, ties to the even neighbour (Python's [round(x)]). *)
Definition round_half_even (x : Q) : Z :=
  let n := Qfloor x in
  match (x - inject_Z n ?= 1 # 2)%Q with
  | Lt => n
  | Gt => (n + 1)%Z
  | Eq => if Z.even n then n else (n + 1)%Z
  end.

(** [round(x, 1)]. *)
Definition round1 (x : Q) : Q := Qred (round_half_even (x * 10) # 10).

(** [sum(xs)]: left to right, starting from 0. *)
Definition sum (xs : list Q) : Q := fold_left Qplus xs 0%Q.

(** [len(xs)] as a number. *)
Definition len {A} (xs : list A) : Q := inject_Z (Z.of_nat (List.length xs)).

(** A value is a multiple of one tenth. *)
Definition one_decimal (x : Q) : Prop := exists k : Z, (x == k # 10)%Q.

End Num.

(* ------------------------------------------------------------------ *)
(** ** Text *)

Module Str.

(** [str.isspace] on the ASCII range: TAB..CR, FS..US and the space. *)
Definition isspace (c : ascii) : bool :=
  let n := nat_of_ascii c in
  ((9 <=? n)%nat && (n <=? 13)%nat) || ((28 <=? n)%nat && (n <=? 32)%nat).

Fixpoint lstrip (s : string) : string :=
  match s with
  | EmptyString => EmptyString
  | String c s' => if isspace c then lstrip s' else s
  end.

Fixpoint rstrip (s : string) : string :=
  match s with
  | EmptyString => EmptyString
  | String c s' =>
      match rstrip s' with
      | EmptyString => if isspace c then EmptyString else String c EmptyString
      | r => String c r
      end
  end.

(** [s.strip()]. *)
Definition strip (s : string) : string := rstrip (lstrip s).

(** [s.split(sep)] for a one-character separator: never the empty list. *)
Fixpoint split (sep : ascii) (s : string) : list string :=
  match s with
  | EmptyString => [EmptyString]
  | String c s' =>
      if Ascii.eqb c sep then EmptyString :: split sep s'
      else match split sep s' with
           | [] => [String c EmptyString]
           | w :: ws => String c w :: ws
           end
  end.

(** [s.replace(old, new)] for a non-empty [old]: occurrences are replaced
    left to right without overlap; [skip] counts the characters of a match
    still to be dropped. *)
Fixpoint replace_from (old new : string) (skip : nat) (s : string) : string :=
  match s with
  | EmptyString => EmptyString
  | String c s' =>
      match skip with
      | S k => replace_from old new k s'
      | O =>
          if prefix old s
          then new ++ replace_from old new (String.length old - 1) s'
          else String c (replace_from old new 0 s')
      end
  end.

Definition replace (old new s : string) : string := replace_from old new 0 s.

(** Truth value of a string: empty is false. *)
Definition truthy (s : string) : bool :=
  match s with EmptyString => false | _ => true end.

(** Decimal text of a natural number, as an f-string prints it. *)
Definition of_nat (n : nat) : string := NilEmpty.string_of_uint (Nat.to_uint n).

(** [x in xs] / [Series.isin] on text. *)
Definition isin (x : string) (xs : list string) : bool :=
  existsb (String.eqb x) xs.

End Str.

(* ------------------------------------------------------------------ *)
(** ** Exceptions and outcomes *)

Record exn := mk_exn { exn_class : string; exn_msg : string }.

Inductive outcome (A : Type) : Type :=
| Return (a : A)
| Raise (e : exn).
Arguments Return {A} a.
Arguments Raise {A} e.

Definition ZeroDivisionError : exn := mk_exn "ZeroDivisionError" "division by zero".
Definition TypeError (msg : string) : exn := mk_exn "TypeError" msg.
Definition KeyError (key : string) : exn := mk_exn "KeyError" ("'" ++ key ++ "'").
Definition IndexError (msg : string) : exn := mk_exn "IndexError" msg.
Definition AttributeError (msg : string) : exn := mk_exn "AttributeError" msg.

(** [x / y] on numbers. *)
Definition truediv (x y : Q) : outcome Q :=
  if Qeq_bool y 0 then Raise ZeroDivisionError else Return (x / y)%Q.

(* ------------------------------------------------------------------ *)
(** ** JSON values, as [json.loads] and [response.json()] build them *)

Inductive json : Type :=
| JNull
| JBool (b : bool)
| JNum (q : Q)
| JStr (s : string)
| JArr (items : list json)
| JObj (fields : list (string * json)).

Inductive subscript := KStr (s : string) | KInt (i : nat).

Fixpoint lookup {A} (k : string) (kv : list (string * A)) : option A :=
  match kv with
  | [] => None
  | (k', v) :: kv' => if String.eqb k k' then Some v else lookup k kv'
  end.

Definition type_name (v : json) : string :=
  match v with
  | JNull => "NoneType"
  | JBool _ => "bool"
  | JNum _ => "float"
  | JStr _ => "str"
  | JArr _ => "list"
  | JObj _ => "dict"
  end.

(** [v[k]] for a text key or a non-negative index. *)
Definition getitem (v : json) (k : subscript) : outcome json :=
  match v, k with
  | JObj kv, KStr s =>
      match lookup s kv with Some x => Return x | None => Raise (KeyError s) end
  | JObj _, KInt i => Raise (mk_exn "KeyError" (Str.of_nat i))
  | JArr l, KInt i =>
      match nth_error l i with
      | Some x => Return x
      | None => Raise (IndexError "list index out of range")
      end
  | JArr _, KStr _ =>
      Raise (TypeError "list indices must be integers or slices, not str")
  | JStr s, KInt i =>
      match String.get i s with
      | Some c => Return (JStr (String c EmptyString))
      | None => Raise (IndexError "string index out of range")
      end
  | JStr _, KStr _ => Raise (TypeError "string indices must be integers, not 'str'")
  | _, _ => Raise (TypeError ("'" ++ type_name v ++ "' object is not subscriptable"))
  end.

(** The receiver of [.replace]: only text has the method. *)
Definition as_text (v : json) : outcome string :=
  match v with
  | JStr s => Return s
  | _ => Raise (AttributeError ("'" ++ type_name v ++ "' object has no attribute 'replace'"))
  end.

(* ------------------------------------------------------------------ *)
(** ** The candidate frame and the stored results *)

(** One row of the frame the query or the sample generator returns. *)
Record row := mk_row {
  employee_id : string;
  name : string;
  position : string;
  grade : string;
  directorate : string;
  final_match_rate : Q;
  tgv_scores : list (string * Z);
  tv_scores : list (string * Z)
}.

(** A row once the [is_benchmark] column has been added. *)
Record ranked := mk_ranked { base : row; is_benchmark : bool }.

Definition rate (r : ranked) : Q := final_match_rate (base r).
Definition ident (r : ranked) : string := employee_id (base r).

Record analytics := mk_analytics {
  avg_match : Q;
  benchmark_avg : Q;
  top_talent_count : nat
}.

(** The dictionary kept in [st.session_state.results]. *)
Record results := mk_results {
  vacancy_id : option string;
  job_profile : json;
  talent_df : list ranked;
  stats : analytics;
  benchmark_ids : list string
}.

(** The four inputs of the side bar form. *)
Record form := mk_form {
  role_name : string;
  job_level : string;
  role_purpose : string;
  benchmark_text : string
}.

(* ------------------------------------------------------------------ *)
(** ** Effects *)

Inductive level := LError | LWarning | LInfo.

(** The row sent to the [talent_benchmarks] table. *)
Record vacancy := mk_vacancy {
  v_id : string;
  v_role_name : string;
  v_job_level : string;
  v_role_purpose : string;
  v_selected_talent_ids : list string
}.

(** What the script does that the outside can see, in order. *)
Inductive event :=
| Shown (l : level) (text : string)
| Connected (url key : string)
| Inserted (v : vacancy)
| Queried
| Posted (role lvl purpose : string).

(** A database client: what the insert and the query answer. *)
Record client := mk_client {
  insert_execute : vacancy -> outcome unit;
  rpc_execute_sql : outcome (list row)
}.

(** The answers of the outside world during one run of the script.
    [draws] holds what the random generator hands to the successive calls
    the script makes to it, one value of [0, 1) per call: the value of
    [random.random()] for a [random.uniform], and a value standing for
    the position picked for a [random.choice] (see [choice]).  How many
    words of the underlying generator a call takes is not modelled.
    [now] is the text of [datetime.now().strftime('%Y%m%d%H%M%S')]. *)
Record env := mk_env {
  draws : nat -> Q;
  now : string;
  import_supabase : outcome unit;
  create_client : string -> string -> outcome client;
  requests_post : string -> string -> string -> outcome (outcome json)
}.

Record session_state := mk_session {
  session_results : option results;
  supabase_url : string;
  supabase_key : string
}.

(** The state one run of the script threads: the session, the number
    of calls made to the random generator so far (the position in
    [draws]), and the trace of events. *)
Record app := mk_app {
  session : session_state;
  rng_pos : nat;
  trace : list event
}.

Definition M (A : Type) : Type := app -> outcome A * app.

Definition ret {A} (a : A) : M A := fun s => (Return a, s).

Definition bind {A B} (m : M A) (k : A -> M B) : M B :=
  fun s => match m s with
           | (Return a, s') => k a s'
           | (Raise e, s') => (Raise e, s')
           end.

Notation "x <- m ;; k" := (bind m (fun x => k))
  (at level 61, m at next level, right associativity).
Notation "m ;;; k" := (bind m (fun _ => k))
  (at level 61, right associativity).

(** A pure step that may raise. *)
Definition lift {A} (o : outcome A) : M A := fun s => (o, s).

(** [try: body except Exception as e: handler(e)]. *)
Definition try_except {A} (body : M A) (handler : exn -> M A) : M A :=
  fun s => match body s with
           | (Raise e, s') => handler e s'
           | r => r
           end.

Definition emit (ev : event) : M unit :=
  fun s => (Return tt, mk_app (session s) (rng_pos s) ((trace s ++ [ev])%list)).

Definition st_error (text : string) : M unit := emit (Shown LError text).
Definition st_warning (text : string) : M unit := emit (Shown LWarning text).
Definition st_info (text : string) : M unit := emit (Shown LInfo text).

Definition get_session : M session_state := fun s => (Return (session s), s).

Definition set_results (r : results) : M unit :=
  fun s => (Return tt,
            mk_app (mk_session (Some r) (supabase_url (session s))
                                        (supabase_key (session s)))
                   (rng_pos s) (trace s)).

(* ------------------------------------------------------------------ *)
(** ** Flagging, ranking and analytics (lines 328-345) *)

(** [talent_df['is_benchmark'] = talent_df['employee_id'].isin(benchmark_list)] *)
Definition flag (benchmark_list : list string) (df : list row) : list ranked :=
  map (fun r => mk_ranked r (Str.isin (employee_id r) benchmark_list)) df.

(** [sort_values('final_match_rate', ascending=False)]: the only key is
    the rate, no other column takes part.  The library leaves rows of
    equal rate in an order of its own choosing; the model keeps them in
    the order of the frame, and [sort_values_by] below stands for any
    order computed from the key column alone. *)
Fixpoint insert_desc (x : ranked) (l : list ranked) : list ranked :=
  match l with
  | [] => [x]
  | y :: l' =>
      if Qle_bool (rate y) (rate x) then x :: l else y :: insert_desc x l'
  end.

Definition sort_values (df : list ranked) : list ranked :=
  fold_right insert_desc [] df.

(** [round(sum(rates) / len(rates), 1)], on exact rationals.  When the
    mean lies exactly half way between two tenths the floating-point
    computation may give either neighbour; here it is the even one. *)
Definition mean_round1 (rates : list Q) : outcome Q :=
  match truediv (Num.sum rates) (Num.len rates) with
  | Return q => Return (Num.round1 q)
  | Raise e => Raise e
  end.

(** The ['avg_match'] entry. *)
Definition avg_match_of (match_rates : list Q) : outcome Q :=
  mean_round1 match_rates.

(** The ['benchmark_avg'] entry:
    [round(...) if benchmark_rates else 0]. *)
Definition benchmark_avg_of (benchmark_rates : list Q) : outcome Q :=
  match benchmark_rates with
  | [] => Return 0%Q
  | _ => mean_round1 benchmark_rates
  end.

(** The ['top_talent_count'] entry. *)
Definition top_talent_count_of (match_rates : list Q) : nat :=
  List.length (filter (fun r => Qle_bool 80 r) match_rates).

(** Lines 328-345 as a function of the vacancy id, the profile, the
    benchmark list and the frame: the value assigned to
    [st.session_state.results], or the exception that prevents it. *)
Definition analyse (vid : option string) (profile : json)
    (benchmark_list : list string) (df : list row) : outcome results :=
  let talent := sort_values (flag benchmark_list df) in
  let match_rates := map rate talent in
  let benchmark_rates := map rate (filter is_benchmark talent) in
  match avg_match_of match_rates with
  | Raise e => Raise e
  | Return a =>
      match benchmark_avg_of benchmark_rates with
      | Raise e => Raise e
      | Return b =>
          Return (mk_results vid profile talent
                    (mk_analytics a b (top_talent_count_of match_rates))
                    benchmark_list)
      end
  end.

(** [[id.strip() for id in benchmark_ids.split(',')]] *)
Definition supplied_ids (text : string) : list string :=
  map Str.strip (Str.split "," text).

(** Line 305: the comprehension cut by [[:3]]. *)
Definition benchmark_list (text : string) : list string :=
  firstn 3 (supplied_ids text).

(** The rows of the distribution chart (lines 400-410). *)
Definition distribution_data (match_rates : list Q) : list (string * nat) :=
  let count p := List.length (filter p match_rates) in
  [ ("90-100", count (fun r => Qle_bool 90 r));
    ("80-89", count (fun r => Qle_bool 80 r && negb (Qle_bool 90 r)));
    ("70-79", count (fun r => Qle_bool 70 r && negb (Qle_bool 80 r)));
    ("60-69", count (fun r => Qle_bool 60 r && negb (Qle_bool 70 r)));
    ("<60", count (fun r => negb (Qle_bool 60 r))) ].

Definition distribution_of (r : results) : list (string * nat) :=
  distribution_data (map rate (talent_df r)).

(** The fallback of [generate_job_profile]: built from the three role
    inputs alone. *)
Definition fallback_profile (role lvl purpose : string) : json :=
  JObj
    [ ("job_requirements",
       JStr (role ++ " requires strong technical skills, domain expertise, and proven ability to deliver results at " ++ lvl ++ " level. Excellent communication, analytical thinking, and stakeholder management capabilities are essential."));
      ("job_description",
       JStr ("As a " ++ role ++ ", you will " ++ purpose ++ ". This " ++ lvl ++ " position requires balancing technical depth with business acumen, driving data-informed decisions, and collaborating effectively across teams."));
      ("key_competencies",
       JArr [ JStr "Technical Expertise";
              JStr "Analytical Thinking";
              JStr "Communication Skills";
              JStr "Problem Solving";
              JStr "Stakeholder Management" ]) ].

(** A sort that, like the library's, computes the new order of the rows
    from the key column alone: [argsort] maps the column to the list of
    positions to take. *)
Section KeyOnlySort.

Variable argsort : list Q -> list nat.

Definition take (positions : list nat) (df : list ranked) : list ranked :=
  flat_map (fun i => match nth_error df i with
                     | Some r => [r]
                     | None => []
                     end) positions.

Definition sort_values_by (df : list ranked) : list ranked :=
  take (argsort (map rate df)) df.

End KeyOnlySort.

(** The order the ranking is said to have: rates never increase, and of
    two rows with the same rate the one with the smaller id is first. *)
Definition in_rank_order (x y : ranked) : Prop :=
  (rate y <= rate x)%Q /\ ((rate x == rate y)%Q -> String.leb (ident x) (ident y) = true).

Definition ranked_with_ties (l : list ranked) : Prop :=
  forall i j x y, (i < j)%nat -> nth_error l i = Some x -> nth_error l j = Some y ->
                  in_rank_order x y.

(** [x] may stand before [y] in a descending ranking. *)
Definition not_below (x y : ranked) : Prop := (rate y <= rate x)%Q.

(** Rates never increase along the list. *)
Definition descending (l : list ranked) : Prop :=
  forall i x y, nth_error l i = Some x -> nth_error l (S i) = Some y ->
                (rate y <= rate x)%Q.

(* ------------------------------------------------------------------ *)
(** ** The script's functions *)

Section Script.

(** [json.loads], a function of the text alone. *)
Variable json_loads : string -> outcome json.

(** The answers of the outside world. *)
Variable E : env.

(** One call to the generator: the next value of the sequence. *)
Definition random : M Q :=
  fun s => (Return (draws E (rng_pos s)),
            mk_app (session s) (S (rng_pos s)) (trace s)).

(** [random.uniform(a, b)] is [a + (b - a) * random()]. *)
Definition uniform (a b : Q) : M Q :=
  u <- random ;; ret (a + (b - a) * u)%Q.

(** [random.choice(xs)]: one call; the position below [len(xs)] the
    library picks is read off the value [u] of the call as
    [floor(u * len(xs))].  The library finds the position by drawing
    bits, with retries; the statements below do not depend on how. *)
Definition choice (xs : list string) : M string :=
  u <- random ;;
  ret (nth (Z.to_nat (Qfloor (u * Num.len xs))) xs EmptyString).

(** [round(base_score + random.uniform(-5, 5))] *)
Definition around (base_score : Q) : M Z :=
  d <- uniform (-5) 5 ;; ret (Num.round_half_even (base_score + d)).

(** The body of the loop of [generate_sample_data]. *)
Definition sample_row (i : nat) : M row :=
  base_score <- uniform 70 95 ;;
  pos <- choice ["Data Analyst"; "Business Analyst"; "Data Scientist"] ;;
  grd <- choice ["III"; "IV"; "V"] ;;
  dir <- choice ["Commercial"; "Operations"; "HR & Corporate Affairs"] ;;
  la <- around base_score ;;
  ro <- around base_score ;;
  co <- around base_score ;;
  inn <- around base_score ;;
  itg <- around base_score ;;
  ts <- around base_score ;;
  dk <- around base_score ;;
  at_ <- around base_score ;;
  cm <- around base_score ;;
  ret (mk_row ("EMP" ++ Str.of_nat (1000 + i))
              ("Employee " ++ Str.of_nat (1000 + i))
              pos grd dir
              (Num.round1 base_score)
              [ ("Learning Agility", la); ("Results Orientation", ro);
                ("Collaboration", co); ("Innovation", inn); ("Integrity", itg) ]
              [ ("Technical Skills", ts); ("Domain Knowledge", dk);
                ("Analytical Thinking", at_); ("Communication", cm) ]).

Fixpoint for_each {A} (body : nat -> M A) (range : list nat) : M (list A) :=
  match range with
  | [] => ret []
  | i :: rest => x <- body i ;; xs <- for_each body rest ;; ret (x :: xs)
  end.

Definition generate_sample_data : M (list row) :=
  for_each sample_row (seq 0 15).

Definition init_supabase_connection : M (option client) :=
  try_except
    (lift (import_supabase E) ;;;
     s <- get_session ;;
     let url := supabase_url s in
     let key := supabase_key s in
     if Str.truthy url && Str.truthy key then
       emit (Connected url key) ;;;
       c <- lift (create_client E url key) ;;
       ret (Some c)
     else ret None)
    (fun e =>
       st_error ("Supabase connection error: " ++ exn_msg e) ;;; ret None).

Definition insert_job_vacancy (supabase : client)
    (role lvl purpose : string) (ids : list string) : M (option string) :=
  try_except
    (let vid := "JV-" ++ now E in
     let data := mk_vacancy vid role lvl purpose ids in
     emit (Inserted data) ;;;
     lift (insert_execute supabase data) ;;;
     ret (Some vid))
    (fun e =>
       st_error ("Error inserting job vacancy: " ++ exn_msg e) ;;; ret None).

(** The [try] block of [generate_job_profile]: the request (its body is
    a fixed template around the three role inputs), [response.json()],
    the three subscripts, the clean-up of the text and [json.loads]. *)
Definition request_profile (role lvl purpose : string) : M json :=
  emit (Posted role lvl purpose) ;;;
  response <- lift (requests_post E role lvl purpose) ;;
  result <- lift response ;;
  content <- lift (getitem result (KStr "content")) ;;
  first <- lift (getitem content (KInt 0)) ;;
  text <- lift (getitem first (KStr "text")) ;;
  t <- lift (as_text text) ;;
  let cleaned := Str.strip (Str.replace "```" "" (Str.replace "```json" "" t)) in
  lift (json_loads cleaned).

Definition generate_job_profile (role lvl purpose : string) : M json :=
  try_except
    (request_profile role lvl purpose)
    (fun e =>
       st_warning ("Using fallback job profile. API error: " ++ exn_msg e) ;;;
       ret (fallback_profile role lvl purpose)).

Definition execute_matching_query (supabase : client) (vid : string)
  : M (option (list row)) :=
  try_except
    (emit Queried ;;;
     data <- lift (rpc_execute_sql supabase) ;;
     match data with
     | [] => st_error "No data returned from query" ;;; ret None
     | _ => ret (Some data)
     end)
    (fun e =>
       st_error ("Query execution error: " ++ exn_msg e) ;;;
       st_info "Generating sample data for demonstration purposes..." ;;;
       df <- generate_sample_data ;;
       ret (Some df)).

(** The text of the message of line 301. *)
Definition required_message : string := "⚠️ Please fill in all required fields!".

(** [all([role_name, job_level, role_purpose, benchmark_ids])] *)
Definition all_filled (f : form) : bool :=
  forallb Str.truthy
    [role_name f; job_level f; role_purpose f; benchmark_text f].

(** The stages of the [else] branch up to the candidate frame. *)
Definition collect (f : form) (ids : list string)
  : M (option string * json * option (list row)) :=
  supabase <- init_supabase_connection ;;
  vid <- match supabase with
         | Some c =>
             insert_job_vacancy c (role_name f) (job_level f) (role_purpose f) ids
         | None =>
             st_warning "⚠️ Database not configured. Using demo mode." ;;;
             ret (Some ("JV-" ++ now E))
         end ;;
  profile <- generate_job_profile (role_name f) (job_level f) (role_purpose f) ;;
  df <- match supabase, vid with
        | Some c, Some v => execute_matching_query c v
        | _, _ => d <- generate_sample_data ;; ret (Some d)
        end ;;
  ret (vid, profile, df).

(** [if generate_button: ...] (lines 299-345). *)
Definition on_generate (f : form) : M unit :=
  if negb (all_filled f) then
    st_error required_message
  else
    let ids := benchmark_list (benchmark_text f) in
    got <- collect f ids ;;
    let '(vid, profile, df) := got in
    match df with
    | None => lift (Raise (TypeError "'NoneType' object is not subscriptable"))
    | Some rows =>
        r <- lift (analyse vid profile ids rows) ;;
        set_results r
    end.

End Script.

(* ------------------------------------------------------------------ *)
(** ** The per-variable match rate of the design *)

Module Design.

Inductive rate_result :=
| Rate (r : Q)
| InvalidScoreError
| Unspecified.

Definition valid_score (x : Q) : bool := Qle_bool 0 x && Qle_bool x 100.

(** Modelled from the spec: [AggregateVariable], the per-variable match
    rate of section 4.1.  The script computes no such rate (its query
    holds placeholders), so the definition follows the spec's words:
    invalid scores fail; with a positive baseline the rate is
    [100 - min(100, abs(c - b) / b * 100)]; two equal scores (both zero
    included) give 100.  For a zero baseline and a positive candidate
    score the spec gives no value: [Unspecified]. *)
Definition AggregateVariable (candidate_score baseline_score : Q) : rate_result :=
  if negb (valid_score candidate_score && valid_score baseline_score) then
    InvalidScoreError
  else if negb (Qle_bool baseline_score 0) then
    Rate (100 - Qmin 100 (Qabs (candidate_score - baseline_score) / baseline_score * 100))
  else if Qeq_bool candidate_score baseline_score then Rate 100
  else Unspecified.

(** Two results agree: the same failure, or rates equal as numbers. *)
Definition same_result (a b : rate_result) : Prop :=
  match a, b with
  | Rate x, Rate y => (x == y)%Q
  | InvalidScoreError, InvalidScoreError => True
  | Unspecified, Unspecified => True
  | _, _ => False
  end.

End Design.

(* ------------------------------------------------------------------ *)
(** ** Notions used in the statements *)

(** The arithmetic mean of a non-empty list of rates. *)
Definition mean (rates : list Q) : Q := (Num.sum rates / Num.len rates)%Q.

(** The rates of the rows flagged as benchmark. *)
Definition benchmark_rates (talent : list ranked) : list Q :=
  map rate (filter is_benchmark talent).

(** The same world with another sequence of random values. *)
Definition with_draws (E : env) (d : nat -> Q) : env :=
  mk_env d (now E) (import_supabase E) (create_client E) (requests_post E).

(** The same world with another clock reading. *)
Definition with_now (E : env) (stamp : string) : env :=
  mk_env (draws E) stamp (import_supabase E) (create_client E) (requests_post E).

(** Two sequences agree on the [n] values that follow position [p]. *)
Definition agree (d1 d2 : nat -> Q) (n p : nat) : Prop :=
  forall i, (i < n)%nat -> d1 (i + p)%nat = d2 (i + p)%nat.

(** [m1] and [m2] are the same computation from every state in which
    the sequences [d1] and [d2] agree on the values [m2] draws; the
    number of calls made never decreases. *)
Definition uses {A} (d1 d2 : nat -> Q) (m1 m2 : M A) : Prop :=
  forall s,
    (rng_pos s <= rng_pos (snd (m2 s)))%nat /\
    (agree d1 d2 (rng_pos (snd (m2 s)) - rng_pos s) (rng_pos s) -> m1 s = m2 s).

(** The state after [st.error(text)] and nothing else. *)
Definition only_shown (l : level) (text : string) (s : app) : app :=
  mk_app (session s) (rng_pos s) ((trace s ++ [Shown l text])%list).

(** What is stored after a run, if anything. *)
Definition stored (r : outcome unit * app) : option results :=
  session_results (session (snd r)).

(* ------------------------------------------------------------------ *)
(** ** Concrete inputs *)

Module Inputs.

(** A machine without database credentials and without network. *)
Definition offline (d : nat -> Q) (stamp : string) : env :=
  mk_env d stamp (Return tt)
    (fun _ _ => Raise (mk_exn "Exception" "Invalid URL"))
    (fun _ _ _ => Raise (mk_exn "ConnectionError" "Max retries exceeded")).

(** A parser that rejects every text. *)
Definition rejecting : string -> outcome json :=
  fun _ => Raise (mk_exn "JSONDecodeError" "Expecting value: line 1 column 1 (char 0)").

Definition fresh : app := mk_app (mk_session None "" "") 0 [].

Definition analyst : form :=
  mk_form "Data Analyst" "Middle"
          "You turn business questions into data-driven answers."
          "312, 335, 175".

Definition no_level : form :=
  mk_form "Data Analyst" "" "You turn business questions into data-driven answers."
          "312, 335, 175".

Definition draws_a (n : nat) : Q := Z.of_nat (n * 37 mod 100) # 100.
Definition draws_b (n : nat) : Q := Z.of_nat (n * 53 mod 100) # 100.

(** As [draws_a] for the first thousand values, then constant. *)
Definition draws_a_then (n : nat) : Q :=
  if (n <? 1000)%nat then draws_a n else 1 # 2.

Definition noon : string := "20240101120000".
Definition noon_and_a_second : string := "20240101120001".

Definition person (id : string) (r : Q) : row :=
  mk_row id ("Employee " ++ id) "Data Analyst" "IV" "Operations" r [] [].

(** Two candidates with the same rate, the larger id first. *)
Definition tied : list ranked :=
  [ mk_ranked (person "EMP2" 80) false; mk_ranked (person "EMP1" 80) false ].

Definition tied_swapped : list ranked :=
  [ mk_ranked (person "EMP1" 80) false; mk_ranked (person "EMP2" 80) false ].

(** Three benchmark candidates whose mean is not a one-decimal number. *)
Definition three : list row :=
  [ person "312" 80; person "335" (801 # 10); person "175" (801 # 10) ].

(** The end-to-end scenario of the specification. *)
Definition scenario : list row :=
  [ person "312" 95; person "400" 82; person "401" 61 ].

(** Candidates none of whom is a benchmark id. *)
Definition strangers : list row :=
  [ person "EMP1000" (905 # 10); person "EMP1001" (732 # 10) ].

End Inputs.

(* ------------------------------------------------------------------ *)
(** ** The rest of the script's logic *)

(** [get_match_color] (lines 222-231). *)
Definition get_match_color (r : Q) : string :=
  if Qle_bool 90 r then "#10b981"
  else if Qle_bool 80 r then "#3b82f6"
  else if Qle_bool 70 r then "#f59e0b"
  else "#ef4444".

(** [sep.join(parts)]. *)
Fixpoint join (sep : string) (parts : list string) : string :=
  match parts with
  | [] => EmptyString
  | [p] => p
  | p :: rest => p ++ sep ++ join sep rest
  end.

(** The benchmark ids as the summary prints them (line 512):
    [', '.join(results['benchmark_ids'])]. *)
Definition shown_benchmark_ids (r : results) : string :=
  join ", " (benchmark_ids r).

(** [c in s] for a character. *)
Fixpoint has_char (c : ascii) (s : string) : bool :=
  match s with
  | EmptyString => false
  | String c' s' => Ascii.eqb c' c || has_char c s'
  end.

(** An id as the form's parser leaves it: no comma, no white space at
    either end. *)
Definition clean_id (s : string) : Prop :=
  has_char "," s = false /\ Str.strip s = s.

(** The number of rows of a given colour. *)
Definition coloured (colour : string) (match_rates : list Q) : nat :=
  List.length (filter (fun r => String.eqb (get_match_color r) colour) match_rates).

(** The count the chart shows for a range. *)
Definition bucket (range : string) (match_rates : list Q) : nat :=
  match lookup range (distribution_data match_rates) with
  | Some n => n
  | None => 0%nat
  end.

(** Every value of the random sequence lies in [0, 1), as the values of
    [random.random()] do. *)
Definition unit_draws (E : env) : Prop :=
  forall n, (0 <= draws E n /\ draws E n < 1)%Q.

Definition score_in_range (kv : string * Z) : Prop :=
  (65 <= snd kv <= 100)%Z.

(** What a row of the sample data looks like. *)
Definition sample_like (r : row) : Prop :=
  (70 <= final_match_rate r /\ final_match_rate r <= 95)%Q /\
  Num.one_decimal (final_match_rate r) /\
  In (position r) ["Data Analyst"; "Business Analyst"; "Data Scientist"] /\
  In (grade r) ["III"; "IV"; "V"] /\
  In (directorate r) ["Commercial"; "Operations"; "HR & Corporate Affairs"] /\
  map fst (tgv_scores r) =
    ["Learning Agility"; "Results Orientation"; "Collaboration"; "Innovation";
     "Integrity"] /\
  map fst (tv_scores r) =
    ["Technical Skills"; "Domain Knowledge"; "Analytical Thinking"; "Communication"] /\
  Forall score_in_range (tgv_scores r) /\
  Forall score_in_range (tv_scores r).

(** The ids of the sample data: EMP1000 to EMP1014. *)
Definition sample_ids : list string :=
  map (fun i => "EMP" ++ Str.of_nat (1000 + i)) (seq 0 15).

(** The state after [n] values have been drawn and nothing else. *)
Definition drawn (n : nat) (s : app) : app :=
  mk_app (session s) (n + rng_pos s) (trace s).

(** [s'] can follow [s] while the session is untouched: the trace is
    extended and the generator has not gone back. *)
Definition grows (s s' : app) : Prop :=
  session s' = session s /\
  (exists evs, trace s' = (trace s ++ evs)%list) /\
  (rng_pos s <= rng_pos s')%nat.

(** The same, the stored results apart: the credentials are kept. *)
Definition grows_but_results (s s' : app) : Prop :=
  supabase_url (session s') = supabase_url (session s) /\
  supabase_key (session s') = supabase_key (session s) /\
  (exists evs, trace s' = (trace s ++ evs)%list) /\
  (rng_pos s <= rng_pos s')%nat.

(** An event that reaches the database. *)
Definition database_event (ev : event) : bool :=
  match ev with
  | Connected _ _ | Inserted _ | Queried => true
  | _ => false
  end.

(** A reply of the text API in the expected shape: the text is at
    [result['content'][0]['text']]. *)
Definition reply (text : string) (more_blocks : list json)
    (more_fields : list (string * json)) : json :=
  JObj (("content", JArr (JObj [("text", JStr text)] :: more_blocks)) :: more_fields).

(** The clean-up of the reply text (line 119). *)
Definition cleaned (text : string) : string :=
  Str.strip (Str.replace "```" "" (Str.replace "```json" "" text)).

Definition backtick : ascii := "`"%char.

(** Every step of [m] is related by [R] to the state it starts from. *)
Definition respects {A} (R : app -> app -> Prop) (m : M A) : Prop :=
  forall s, R s (snd (m s)).

(** [s'] follows [s] without a draw, a change of the session or a call
    to the database. *)
Definition quiet (s s' : app) : Prop :=
  session s' = session s /\
  rng_pos s' = rng_pos s /\
  exists evs, trace s' = (trace s ++ evs)%list /\
              forallb (fun ev => negb (database_event ev)) evs = true.

Definition not_database (ev : event) : bool := negb (database_event ev).
Definition any_event (ev : event) : bool := true.

(** The events a run added to the trace. *)
Definition added (s s' : app) : list event :=
  skipn (List.length (trace s)) (trace s').

(** The credentials of the session are both present. *)
Definition configured (s : app) : bool :=
  Str.truthy (supabase_url (session s)) && Str.truthy (supabase_key (session s)).

Definition none_type_error : exn :=
  TypeError "'NoneType' object is not subscriptable".

(** [s'] follows [s] with the same session and no draw. *)
Definition still (s s' : app) : Prop :=
  session s' = session s /\ rng_pos s' = rng_pos s.

(** The row the form would insert into [talent_benchmarks]. *)
Definition vacancy_of (E : env) (f : form) : vacancy :=
  mk_vacancy ("JV-" ++ now E) (role_name f) (job_level f) (role_purpose f)
             (benchmark_list (benchmark_text f)).

Definition demo_warning : event :=
  Shown LWarning "⚠️ Database not configured. Using demo mode.".

(** The state after the events [evs] and nothing else. *)
Definition logged (evs : list event) (s : app) : app :=
  mk_app (session s) (rng_pos s) ((trace s ++ evs)%list).

(** The state after a run that added [evs], drew [n] values and stored
    [r]. *)
Definition after_run (evs : list event) (n : nat) (r : results) (s : app) : app :=
  snd (set_results r (drawn n (logged evs s))).

Definition insert_error (e : exn) : event :=
  Shown LError ("Error inserting job vacancy: " ++ exn_msg e).

Definition query_error (e : exn) : event :=
  Shown LError ("Query execution error: " ++ exn_msg e).

Definition sample_info : event :=
  Shown LInfo "Generating sample data for demonstration purposes...".

Definition connected (s : app) : event :=
  Connected (supabase_url (session s)) (supabase_key (session s)).

(** Concrete worlds with a database. *)
Module Online.

Definition answering : client :=
  mk_client (fun _ => Return tt) (Return Inputs.strangers).

Definition read_only : client :=
  mk_client (fun _ => Raise (mk_exn "APIError" "permission denied for table talent_benchmarks"))
            (Return Inputs.strangers).


Definition without_function : client :=
  mk_client (fun _ => Return tt)
            (Raise (mk_exn "APIError" "Could not find the function public.execute_sql")).

Definition world (c : client) : env :=
  mk_env Inputs.draws_a Inputs.noon (Return tt)
    (fun _ _ => Return c)
    (fun _ _ _ => Raise (mk_exn "ConnectionError" "Max retries exceeded")).

Definition signed_in : app :=
  mk_app (mk_session None "https://project.supabase.co" "anon-key") 0 [].

End Online.

(** The warning of the [except] branch of [generate_job_profile]. *)
Definition fallback_warning (e : exn) : event :=
  Shown LWarning ("Using fallback job profile. API error: " ++ exn_msg e).

(** Concrete replies of the text API. *)
Module Replies.

Definition fenced : string := "```json" ++ " {} " ++ "```".

Definition good : json := reply fenced [] [("role", JStr "assistant")].

Definition unauthorized : json :=
  JObj [ ("type", JStr "error");
         ("error", JObj [("type", JStr "authentication_error");
                         ("message", JStr "x-api-key header is required")]) ].

Definition world (answer : json) : env :=
  mk_env Inputs.draws_a Inputs.noon (Return tt)
    (fun _ _ => Raise (mk_exn "Exception" "Invalid URL"))
    (fun _ _ _ => Return (Return answer)).

(** A parser that knows the empty object only. *)
Definition braces_only (text : string) : outcome json :=
  if String.eqb text "{}" then Return (JObj [])
  else Raise (mk_exn "JSONDecodeError" "Expecting value: line 1 column 1 (char 0)").

End Replies.

(** The three candidates at the head of the ranking (line 503):
    [results['talent_df'].head(3)]. *)
Definition top_3_candidates (r : results) : list ranked :=
  firstn 3 (talent_df r).

(* ================================================================== *)
(** * Properties *)

(* ------------------------------------------------------------------ *)
(** ** Rounding *)

Lemma round_half_even_near (x : Q) :
  (Qabs (inject_Z (Num.round_half_even x) - x) <= 1 # 2)%Q.
Proof.
  unfold Num.round_half_even.
  pose proof (Qfloor_le x) as Hlo.
  pose proof (Qlt_floor x) as Hhi.
  rewrite inject_Z_plus in Hhi.
  change (inject_Z 1) with 1%Q in Hhi.
  apply Qabs_Qle_condition.
  destruct (x - inject_Z (Qfloor x) ?= 1 # 2)%Q eqn:C.
  - apply Qeq_alt in C.
    destruct (Z.even (Qfloor x)).
    + split; lra.
    + rewrite inject_Z_plus. change (inject_Z 1) with 1%Q. split; lra.
  - apply Qlt_alt in C. split; lra.
  - apply Qgt_alt in C. rewrite inject_Z_plus.
    change (inject_Z 1) with 1%Q. split; lra.
Qed.

Lemma tenths_as_product (z : Z) : (z # 10 == inject_Z z * (1 # 10))%Q.
Proof. unfold Qeq, Qmult, inject_Z. simpl. lia. Qed.

Lemma round1_one_decimal (x : Q) : Num.one_decimal (Num.round1 x).
Proof.
  exists (Num.round_half_even (x * 10)). unfold Num.round1. apply Qred_correct.
Qed.

Lemma round1_near (x : Q) : (Qabs (Num.round1 x - x) <= 1 # 20)%Q.
Proof.
  unfold Num.round1.
  pose proof (round_half_even_near (x * 10)) as H.
  apply Qabs_Qle_condition in H. destruct H as [H1 H2].
  apply Qabs_Qle_condition.
  rewrite Qred_correct, tenths_as_product.
  split; lra.
Qed.

(* ------------------------------------------------------------------ *)
(** ** Means *)

Lemma len_nonzero {A} (l : list A) :
  l <> [] -> Qeq_bool (Num.len l) 0 = false.
Proof.
  intros Hl. destruct l as [|a l]; [congruence|].
  unfold Num.len. destruct (Qeq_bool _ 0) eqn:Hq; [|reflexivity].
  apply Qeq_bool_eq in Hq. unfold Qeq, inject_Z in Hq. simpl in Hq. lia.
Qed.

Lemma mean_round1_returns (rates : list Q) :
  rates <> [] -> mean_round1 rates = Return (Num.round1 (mean rates)).
Proof.
  intros H. unfold mean_round1, truediv. now rewrite (len_nonzero rates H).
Qed.

Lemma mean_round1_empty : mean_round1 [] = Raise ZeroDivisionError.
Proof. reflexivity. Qed.

Lemma benchmark_avg_of_returns (rates : list Q) :
  benchmark_avg_of rates =
  Return (match rates with [] => 0%Q | _ => Num.round1 (mean rates) end).
Proof.
  destruct rates as [|r rs]; [reflexivity|].
  unfold benchmark_avg_of. now rewrite mean_round1_returns.
Qed.

(* ------------------------------------------------------------------ *)
(** ** Ranking *)

Lemma insert_desc_perm (x : ranked) (l : list ranked) :
  Permutation (x :: l) (insert_desc x l).
Proof.
  induction l as [|y l IH]; simpl.
  - apply Permutation_refl.
  - destruct (Qle_bool (rate y) (rate x)).
    + apply Permutation_refl.
    + eapply perm_trans; [apply perm_swap|]. now apply perm_skip.
Qed.

Lemma sort_values_perm (df : list ranked) : Permutation df (sort_values df).
Proof.
  induction df as [|x df IH]; simpl.
  - constructor.
  - eapply perm_trans; [apply perm_skip, IH|]. apply insert_desc_perm.
Qed.

Lemma insert_desc_hd (a x : ranked) (l : list ranked) :
  not_below a x -> HdRel not_below a l -> HdRel not_below a (insert_desc x l).
Proof.
  intros Hax Hl. destruct l as [|y l]; simpl.
  - now constructor.
  - destruct (Qle_bool (rate y) (rate x)); constructor; trivial.
    now inversion Hl.
Qed.

Lemma insert_desc_sorted (x : ranked) (l : list ranked) :
  Sorted not_below l -> Sorted not_below (insert_desc x l).
Proof.
  induction 1 as [|y l Hs IH Hhd]; simpl.
  - repeat constructor.
  - destruct (Qle_bool (rate y) (rate x)) eqn:Hc.
    + constructor; [now constructor|]. constructor.
      now apply Qle_bool_iff in Hc.
    + constructor; [exact IH|].
      apply insert_desc_hd; [|exact Hhd].
      unfold not_below.
      destruct (Qlt_le_dec (rate x) (rate y)) as [Hlt|Hle].
      * now apply Qlt_le_weak.
      * apply Qle_bool_iff in Hle. congruence.
Qed.

Lemma sort_values_sorted (df : list ranked) : Sorted not_below (sort_values df).
Proof.
  induction df as [|x df IH]; simpl; [constructor|].
  now apply insert_desc_sorted.
Qed.

Lemma sorted_descending (l : list ranked) : Sorted not_below l -> descending l.
Proof.
  induction 1 as [|a l Hs IH Hhd]; intros i x y Hx Hy.
  - now destruct i.
  - destruct i as [|i]; simpl in Hx, Hy.
    + injection Hx as <-. destruct l as [|b l]; [discriminate|].
      injection Hy as <-. now inversion Hhd.
    + exact (IH i x y Hx Hy).
Qed.

Lemma sort_values_keeps {P : ranked -> Prop} (df : list ranked) :
  Forall P df -> Forall P (sort_values df).
Proof.
  intros H. eapply Permutation_Forall; [apply sort_values_perm|exact H].
Qed.

(** Whatever order a sort computed from the key column alone gives to
    two rows of equal rate, it gives the same to the two rows swapped:
    one of the two frames comes out with the larger id first. *)
Lemma key_only_sort_ignores_ids (argsort : list Q -> list nat) :
  Permutation (argsort [80%Q; 80%Q]) [0%nat; 1%nat] ->
  ~ (ranked_with_ties (sort_values_by argsort Inputs.tied) /\
     ranked_with_ties (sort_values_by argsort Inputs.tied_swapped)).
Proof.
  intros Hp [H1 H2].
  unfold sort_values_by in H1, H2.
  change (map rate Inputs.tied) with [80%Q; 80%Q] in H1.
  change (map rate Inputs.tied_swapped) with [80%Q; 80%Q] in H2.
  assert (Hcase : argsort [80%Q; 80%Q] = [0%nat; 1%nat] \/
                  argsort [80%Q; 80%Q] = [1%nat; 0%nat]).
  { apply Permutation_sym in Hp.
    pose proof (Permutation_length Hp) as Hlen.
    destruct (argsort [80%Q; 80%Q]) as [|a [|b [|c l]]]; try discriminate.
    assert (Ha : In a [0%nat; 1%nat])
      by (eapply Permutation_in; [apply Permutation_sym, Hp|now left]).
    assert (Hb : In b [0%nat; 1%nat])
      by (eapply Permutation_in; [apply Permutation_sym, Hp|right; now left]).
    assert (Hnd : NoDup [a; b]).
    { eapply Permutation_NoDup; [exact Hp|].
      repeat constructor; simpl; intuition discriminate. }
    inversion Hnd as [|? ? Hnin _]; subst.
    simpl in Ha, Hb, Hnin.
    destruct Ha as [<-|[<-|[]]]; destruct Hb as [<-|[<-|[]]]; auto;
      exfalso; apply Hnin; now left. }
  destruct Hcase as [Hc|Hc]; rewrite Hc in H1, H2.
  - destruct (H1 0%nat 1%nat _ _ (Nat.lt_0_succ 0) eq_refl eq_refl) as [_ Ht].
    specialize (Ht (Qeq_refl _)). discriminate Ht.
  - destruct (H2 0%nat 1%nat _ _ (Nat.lt_0_succ 0) eq_refl eq_refl) as [_ Ht].
    specialize (Ht (Qeq_refl _)). discriminate Ht.
Qed.

(** C2, as stated, fails: two candidates with the same rate 80 come out
    of the sort with "EMP2" before "EMP1". *)
Lemma C2_ties_not_by_id : ~ ranked_with_ties (sort_values Inputs.tied).
Proof.
  intros H.
  destruct (H 0%nat 1%nat _ _ (Nat.lt_0_succ 0) eq_refl eq_refl) as [_ Ht].
  specialize (Ht (Qeq_refl _)). discriminate Ht.
Qed.

(** C2, amended: the ranked sequence holds the rows of the frame, each
    once, with rates that never increase from one row to the next; the
    sort has no second key. *)
Theorem C2_sorted_descending (df : list ranked) :
  descending (sort_values df) /\ Permutation df (sort_values df).
Proof.
  split.
  - apply sorted_descending, sort_values_sorted.
  - apply sort_values_perm.
Qed.

(* ------------------------------------------------------------------ *)
(** ** Analytics *)

Lemma sort_values_nonempty (df : list ranked) : df <> [] -> sort_values df <> [].
Proof.
  intros H Hs. apply H.
  pose proof (Permutation_length (sort_values_perm df)) as Hl.
  rewrite Hs in Hl. now destruct df.
Qed.

Lemma analyse_returns (vid : option string) (jp : json) (ids : list string)
    (df : list row) :
  df <> [] ->
  analyse vid jp ids df =
  Return
    (let talent := sort_values (flag ids df) in
     mk_results vid jp talent
       (mk_analytics
          (Num.round1 (mean (map rate talent)))
          (match benchmark_rates talent with
           | [] => 0%Q
           | _ => Num.round1 (mean (benchmark_rates talent))
           end)
          (top_talent_count_of (map rate talent)))
       ids).
Proof.
  intros Hdf. unfold analyse, avg_match_of.
  rewrite mean_round1_returns.
  - now rewrite benchmark_avg_of_returns.
  - intros Hm. apply map_eq_nil in Hm. revert Hm. apply sort_values_nonempty.
    unfold flag. intros Hf. apply map_eq_nil in Hf. contradiction.
Qed.

Lemma analyse_empty (vid : option string) (jp : json) (ids : list string) :
  analyse vid jp ids [] = Raise ZeroDivisionError.
Proof. reflexivity. Qed.

(** C4, as stated, fails: three benchmark rows with rates 80.0, 80.1 and
    80.1 have mean 80.0666..., and benchmark_avg is 80.1. *)
Lemma C4_rounded_not_mean :
  exists r,
    analyse None JNull ["312"; "335"; "175"] Inputs.three = Return r /\
    benchmark_avg (stats r) = (801 # 10)%Q /\
    ~ (benchmark_avg (stats r) == mean (benchmark_rates (talent_df r)))%Q.
Proof.
  eexists. split; [vm_compute; reflexivity|]. split; [reflexivity|].
  intros H. vm_compute in H. discriminate H.
Qed.

(** C4, amended: benchmark_avg is the arithmetic mean of final_match_rate
    over the rows flagged as benchmark rounded to one decimal place, that
    is a multiple of 0.1 at most 0.05 away from the mean (when the mean
    lies exactly half way between two tenths, one of the two), and 0 when
    no row is flagged. *)
Theorem C4_benchmark_avg_rounded (vid : option string) (jp : json)
    (ids : list string) (df : list row) :
  df <> [] ->
  exists r,
    analyse vid jp ids df = Return r /\
    talent_df r = sort_values (flag ids df) /\
    (benchmark_rates (talent_df r) = [] -> benchmark_avg (stats r) = 0%Q) /\
    (benchmark_rates (talent_df r) <> [] ->
     Num.one_decimal (benchmark_avg (stats r)) /\
     (Qabs (benchmark_avg (stats r) - mean (benchmark_rates (talent_df r)))
      <= 1 # 20)%Q).
Proof.
  intros Hdf. eexists. split; [apply analyse_returns, Hdf|].
  cbn [talent_df stats benchmark_avg].
  split; [reflexivity|].
  destruct (benchmark_rates (sort_values (flag ids df))) as [|b bs].
  - split; [reflexivity|]. intros H. now contradiction H.
  - split; [discriminate|]. intros _.
    split; [apply round1_one_decimal|apply round1_near].
Qed.

Lemma C4_benchmark_avg_rounded_witness :
  Inputs.scenario <> [] /\
  exists r,
    analyse None JNull ["312"] Inputs.scenario = Return r /\
    benchmark_avg (stats r) = 95%Q /\ avg_match (stats r) = (793 # 10)%Q /\
    top_talent_count (stats r) = 2%nat.
Proof.
  split; [discriminate|].
  destruct (C4_benchmark_avg_rounded None JNull ["312"] Inputs.scenario)
    as [r [Hr _]]; [discriminate|].
  exists r. split; [exact Hr|].
  vm_compute in Hr. injection Hr as <-. now vm_compute.
Defined.

(** Rows none of which is a benchmark id are all left unflagged. *)
Lemma flag_none (ids : list string) (df : list row) :
  (forall r, In r df -> Str.isin (employee_id r) ids = false) ->
  Forall (fun x => is_benchmark x = false) (flag ids df).
Proof.
  intros H. unfold flag. apply Forall_forall. intros x Hx.
  apply in_map_iff in Hx. destruct Hx as [r [<- Hr]]. simpl. now apply H.
Qed.

Lemma filter_none {A} (p : A -> bool) (l : list A) :
  Forall (fun x => p x = false) l -> filter p l = [].
Proof.
  induction 1 as [|x l Hx _ IH]; simpl; [reflexivity|]. now rewrite Hx.
Qed.

(** C6, amended: when none of the benchmark ids is the id of a candidate,
    the run does not fail: the results are built, no row is flagged as
    benchmark and benchmark_avg is 0. *)
Theorem C6_no_match_proceeds (vid : option string) (jp : json)
    (ids : list string) (df : list row) :
  df <> [] ->
  (forall r, In r df -> Str.isin (employee_id r) ids = false) ->
  exists res,
    analyse vid jp ids df = Return res /\
    benchmark_avg (stats res) = 0%Q /\
    Forall (fun x => is_benchmark x = false) (talent_df res) /\
    benchmark_ids res = ids.
Proof.
  intros Hdf Hno. eexists. split; [apply analyse_returns, Hdf|].
  cbn [talent_df stats benchmark_avg benchmark_ids].
  pose proof (sort_values_keeps _ (flag_none ids df Hno)) as Hall.
  repeat split; [|exact Hall].
  unfold benchmark_rates. now rewrite (filter_none _ _ Hall).
Qed.

Lemma C6_no_match_proceeds_witness :
  exists res,
    analyse None JNull ["312"; "335"; "175"] Inputs.strangers = Return res /\
    benchmark_avg (stats res) = 0%Q /\
    Forall (fun x => is_benchmark x = false) (talent_df res) /\
    benchmark_ids res = ["312"; "335"; "175"].
Proof.
  apply (C6_no_match_proceeds None JNull ["312"; "335"; "175"] Inputs.strangers).
  - discriminate.
  - intros r [<-|[<-|[]]]; reflexivity.
Defined.

(* ------------------------------------------------------------------ *)
(** ** The distribution chart *)

Lemma Qle_bool_weaken (a b r : Q) :
  (a <= b)%Q -> Qle_bool b r = true -> Qle_bool a r = true.
Proof.
  intros Hab Hb. apply Qle_bool_iff. apply Qle_bool_iff in Hb.
  eapply Qle_trans; eassumption.
Qed.

Lemma distribution_data_sum (match_rates : list Q) :
  list_sum (map snd (distribution_data match_rates)) = List.length match_rates.
Proof.
  induction match_rates as [|r rs IH]; [reflexivity|].
  unfold distribution_data in *.
  unfold list_sum in *.
  cbn [map snd fold_right filter List.length] in *.
  assert (H98 : Qle_bool 90 r = true -> Qle_bool 80 r = true)
    by (apply Qle_bool_weaken; discriminate).
  assert (H87 : Qle_bool 80 r = true -> Qle_bool 70 r = true)
    by (apply Qle_bool_weaken; discriminate).
  assert (H76 : Qle_bool 70 r = true -> Qle_bool 60 r = true)
    by (apply Qle_bool_weaken; discriminate).
  destruct (Qle_bool 90 r), (Qle_bool 80 r), (Qle_bool 70 r), (Qle_bool 60 r);
    cbn [andb negb List.length];
    try (specialize (H98 eq_refl); discriminate H98);
    try (specialize (H87 eq_refl); discriminate H87);
    try (specialize (H76 eq_refl); discriminate H76);
    lia.
Qed.

(** C7: the five counts of the distribution chart (rate at least 90,
    [80,90), [70,80), [60,70), below 60) add up to the number of
    candidates. *)
Theorem C7_distribution_counts_sum (r : results) :
  map fst (distribution_of r) = ["90-100"; "80-89"; "70-79"; "60-69"; "<60"] /\
  list_sum (map snd (distribution_of r)) = List.length (talent_df r).
Proof.
  split; [reflexivity|].
  unfold distribution_of. rewrite distribution_data_sum. apply length_map.
Qed.

(* ------------------------------------------------------------------ *)
(** ** The handler of the generate button *)

Lemma all_filled_false (f : form) :
  role_name f = "" \/ job_level f = "" \/ role_purpose f = "" \/
  benchmark_text f = "" ->
  all_filled f = false.
Proof.
  unfold all_filled. cbn [forallb].
  intros [H|[H|[H|H]]]; rewrite H; cbn [Str.truthy andb];
    repeat (reflexivity || apply andb_false_r ||
            match goal with |- context [Str.truthy ?x] => destruct (Str.truthy x) end).
Qed.

(** With every field filled the handler is [collect] followed by the
    analytics and the assignment to the session. *)
Lemma on_generate_filled (jl : string -> outcome json) (E : env) (f : form) (s : app) :
  all_filled f = true ->
  on_generate jl E f s =
  match collect jl E f (benchmark_list (benchmark_text f)) s with
  | (Return (vid, jp, Some rows), s1) =>
      match analyse vid jp (benchmark_list (benchmark_text f)) rows with
      | Return r => set_results r s1
      | Raise e => (Raise e, s1)
      end
  | (Return (_, _, None), s1) =>
      (Raise (TypeError "'NoneType' object is not subscriptable"), s1)
  | (Raise e, s1) => (Raise e, s1)
  end.
Proof.
  intros Hf. unfold on_generate. rewrite Hf. cbn [negb]. unfold bind.
  destruct (collect jl E f (benchmark_list (benchmark_text f)) s)
    as [[[[vid jp] [rows|]]|e] s1]; reflexivity.
Qed.

(** A run that gets past the form check and returns has stored the
    results [analyse] built from the benchmark list of line 305. *)
Lemma on_generate_stores (jl : string -> outcome json) (E : env) (f : form)
    (s s' : app) :
  all_filled f = true ->
  on_generate jl E f s = (Return tt, s') ->
  exists vid jp rows r,
    analyse vid jp (benchmark_list (benchmark_text f)) rows = Return r /\
    session_results (session s') = Some r.
Proof.
  intros Hf Hrun. rewrite (on_generate_filled jl E f s Hf) in Hrun.
  destruct (collect jl E f (benchmark_list (benchmark_text f)) s)
    as [[[[vid jp] [rows|]]|e] s1]; try discriminate Hrun.
  destruct (analyse vid jp _ rows) as [r|e] eqn:Ha; [|discriminate Hrun].
  exists vid, jp, rows, r. split; [exact Ha|].
  unfold set_results in Hrun. injection Hrun as <-. reflexivity.
Qed.

Lemma analyse_flags (vid : option string) (jp : json) (ids : list string)
    (df : list row) (r : results) :
  analyse vid jp ids df = Return r ->
  benchmark_ids r = ids /\
  Forall (fun x => is_benchmark x = Str.isin (ident x) ids) (talent_df r).
Proof.
  unfold analyse. intros H.
  destruct (avg_match_of _); [|discriminate H].
  destruct (benchmark_avg_of _); [|discriminate H].
  injection H as <-. split; [reflexivity|]. cbn [talent_df].
  apply sort_values_keeps. unfold flag.
  apply Forall_forall. intros x Hx. apply in_map_iff in Hx.
  now destruct Hx as [y [<- _]].
Qed.

(** C5: of the ids written in the form (split at the commas, each
    stripped) only the first three, in the order written, make the
    benchmark list; a run that returns stores exactly that prefix and
    flags a row as benchmark exactly when its id is in it. *)
Theorem C5_first_three_ids (text : string) :
  benchmark_list text = firstn 3 (supplied_ids text) /\
  (List.length (benchmark_list text) <= 3)%nat /\
  supplied_ids text = (benchmark_list text ++ skipn 3 (supplied_ids text))%list /\
  (forall jl E f s s',
      benchmark_text f = text ->
      all_filled f = true ->
      on_generate jl E f s = (Return tt, s') ->
      exists r,
        session_results (session s') = Some r /\
        benchmark_ids r = firstn 3 (supplied_ids text) /\
        Forall (fun x => is_benchmark x =
                         Str.isin (ident x) (firstn 3 (supplied_ids text)))
               (talent_df r)).
Proof.
  unfold benchmark_list. repeat split.
  - apply firstn_le_length.
  - symmetry. apply firstn_skipn.
  - intros jl E f s s' Ht Hf Hrun.
    destruct (on_generate_stores jl E f s s' Hf Hrun) as (vid & jp & rows & r & Ha & Hs).
    exists r. split; [exact Hs|].
    rewrite Ht in Ha. exact (analyse_flags _ _ _ _ _ Ha).
Qed.

Lemma C5_first_three_ids_witness :
  benchmark_list "312, 335 ,175,999" = ["312"; "335"; "175"] /\
  exists r,
    stored (on_generate Inputs.rejecting (Inputs.offline Inputs.draws_a Inputs.noon)
              (mk_form "Data Analyst" "Middle" "Answer questions." "312, 335 ,175,999")
              Inputs.fresh) = Some r /\
    benchmark_ids r = ["312"; "335"; "175"].
Proof.
  split; [reflexivity|].
  destruct (C5_first_three_ids "312, 335 ,175,999") as (_ & _ & _ & H).
  destruct (H Inputs.rejecting (Inputs.offline Inputs.draws_a Inputs.noon)
              (mk_form "Data Analyst" "Middle" "Answer questions." "312, 335 ,175,999")
              Inputs.fresh
              (snd (on_generate Inputs.rejecting
                      (Inputs.offline Inputs.draws_a Inputs.noon)
                      (mk_form "Data Analyst" "Middle" "Answer questions."
                               "312, 335 ,175,999")
                      Inputs.fresh)))
    as (r & Hs & Hb & _).
  - reflexivity.
  - reflexivity.
  - vm_compute. reflexivity.
  - exists r. split; [exact Hs|exact Hb].
Defined.

(** C10: when one of the four inputs is empty the handler shows the
    error message and does nothing else: the stored results and the rest
    of the session are unchanged, no random value is drawn, and no
    database or API call is made (the trace grows by the message alone). *)
Theorem C10_missing_input_changes_nothing
    (jl : string -> outcome json) (E : env) (f : form) (s : app) :
  role_name f = "" \/ job_level f = "" \/ role_purpose f = "" \/
  benchmark_text f = "" ->
  fst (on_generate jl E f s) = Return tt /\
  session (snd (on_generate jl E f s)) = session s /\
  rng_pos (snd (on_generate jl E f s)) = rng_pos s /\
  trace (snd (on_generate jl E f s)) = (trace s ++ [Shown LError required_message])%list.
Proof.
  intros H. unfold on_generate. rewrite (all_filled_false f H).
  cbn [negb]. repeat split.
Qed.

Lemma C10_missing_input_changes_nothing_witness :
  stored (on_generate Inputs.rejecting
            (Inputs.offline Inputs.draws_a Inputs.noon)
            Inputs.no_level Inputs.fresh) = None /\
  trace (snd (on_generate Inputs.rejecting
                (Inputs.offline Inputs.draws_a Inputs.noon)
                Inputs.no_level Inputs.fresh)) = [Shown LError required_message].
Proof.
  destruct (C10_missing_input_changes_nothing Inputs.rejecting
              (Inputs.offline Inputs.draws_a Inputs.noon)
              Inputs.no_level Inputs.fresh) as (_ & Hs & _ & Ht).
  - right. left. reflexivity.
  - split.
    + unfold stored. rewrite Hs. reflexivity.
    + rewrite Ht. reflexivity.
Defined.

(* ------------------------------------------------------------------ *)
(** ** The profile generator *)

(** C9: the profile generator always returns a value.  When its request
    block raises, whatever the exception, the value is the fallback
    profile built from the three role inputs: its job_requirements names
    the role and the level, its job_description the role, the purpose
    and the level, and its key_competencies are five fixed entries; when
    the block returns, its value is passed on. *)
Theorem C9_profile_generator_total
    (jl : string -> outcome json) (E : env) (role lvl purpose : string) (s : app) :
  (exists v s', generate_job_profile jl E role lvl purpose s = (Return v, s')) /\
  (forall e s1,
      request_profile jl E role lvl purpose s = (Raise e, s1) ->
      exists v,
        generate_job_profile jl E role lvl purpose s =
        (Return v,
         only_shown LWarning ("Using fallback job profile. API error: " ++ exn_msg e) s1) /\
        getitem v (KStr "job_requirements") =
        Return (JStr (role ++ " requires strong technical skills, domain expertise, and proven ability to deliver results at " ++ lvl ++ " level. Excellent communication, analytical thinking, and stakeholder management capabilities are essential.")) /\
        getitem v (KStr "job_description") =
        Return (JStr ("As a " ++ role ++ ", you will " ++ purpose ++ ". This " ++ lvl ++ " position requires balancing technical depth with business acumen, driving data-informed decisions, and collaborating effectively across teams.")) /\
        getitem v (KStr "key_competencies") =
        Return (JArr [ JStr "Technical Expertise"; JStr "Analytical Thinking";
                       JStr "Communication Skills"; JStr "Problem Solving";
                       JStr "Stakeholder Management" ]) /\
        (exists a b c, v = JObj [ ("job_requirements", a); ("job_description", b);
                                  ("key_competencies", c) ])) /\
  (forall v s1,
      request_profile jl E role lvl purpose s = (Return v, s1) ->
      generate_job_profile jl E role lvl purpose s = (Return v, s1)).
Proof.
  unfold generate_job_profile, try_except.
  split; [|split].
  - destruct (request_profile jl E role lvl purpose s) as [[v|e] s1].
    + now exists v, s1.
    + eexists. eexists. reflexivity.
  - intros e s1 ->. eexists. split; [reflexivity|].
    unfold fallback_profile.
    split; [reflexivity|]. split; [reflexivity|]. split; [reflexivity|].
    do 3 eexists. reflexivity.
  - intros v s1 ->. reflexivity.
Qed.

Lemma C9_profile_generator_total_witness :
  fst (request_profile Inputs.rejecting (Inputs.offline Inputs.draws_a Inputs.noon)
         "Data Analyst" "Middle" "answer questions" Inputs.fresh) =
  Raise (mk_exn "ConnectionError" "Max retries exceeded") /\
  exists v,
    fst (generate_job_profile Inputs.rejecting
           (Inputs.offline Inputs.draws_a Inputs.noon)
           "Data Analyst" "Middle" "answer questions" Inputs.fresh) = Return v /\
    getitem v (KStr "job_description") =
    Return (JStr "As a Data Analyst, you will answer questions. This Middle position requires balancing technical depth with business acumen, driving data-informed decisions, and collaborating effectively across teams.").
Proof.
  split; [reflexivity|].
  destruct (C9_profile_generator_total Inputs.rejecting
              (Inputs.offline Inputs.draws_a Inputs.noon)
              "Data Analyst" "Middle" "answer questions" Inputs.fresh)
    as (_ & H & _).
  destruct (H (mk_exn "ConnectionError" "Max retries exceeded")
              (snd (request_profile Inputs.rejecting
                      (Inputs.offline Inputs.draws_a Inputs.noon)
                      "Data Analyst" "Middle" "answer questions" Inputs.fresh))
              eq_refl) as (v & Hrun & _ & Hd & _).
  exists v. rewrite Hrun. split; [reflexivity|exact Hd].
Defined.

(* ------------------------------------------------------------------ *)
(** ** What a run reads from the random generator *)

Section Draws.

Variable jl : string -> outcome json.
Variable E : env.
Variable d : nat -> Q.

Let E' : env := with_draws E d.

Lemma agree_shorter (n k p : nat) :
  (k <= n)%nat -> agree d (draws E) n p -> agree d (draws E) k p.
Proof. intros Hk H i Hi. apply H. lia. Qed.

Lemma agree_later (n j p : nat) :
  (j <= n)%nat -> agree d (draws E) n p -> agree d (draws E) (n - j) (j + p).
Proof.
  intros Hj H i Hi.
  replace (i + (j + p))%nat with ((i + j) + p)%nat by lia.
  apply H. lia.
Qed.

Lemma reads_still {A} (m : M A) :
  (forall s, rng_pos (snd (m s)) = rng_pos s) -> uses d (draws E) m m.
Proof.
  intros H s. rewrite H. split; [lia|reflexivity].
Qed.

Lemma reads_ret {A} (a : A) : uses d (draws E) (ret a) (ret a).
Proof. now apply reads_still. Qed.

Lemma reads_lift {A} (o : outcome A) : uses d (draws E) (lift o) (lift o).
Proof. now apply reads_still. Qed.

Lemma reads_emit (ev : event) : uses d (draws E) (emit ev) (emit ev).
Proof. now apply reads_still. Qed.

Lemma reads_get_session : uses d (draws E) get_session get_session.
Proof. now apply reads_still. Qed.

Lemma reads_set_results (r : results) :
  uses d (draws E) (set_results r) (set_results r).
Proof. now apply reads_still. Qed.

(** The second step reads the values that follow those of the first. *)
Lemma reads_bind {A B} (m1 m2 : M A) (f1 f2 : A -> M B) :
  uses d (draws E) m1 m2 -> (forall a, uses d (draws E) (f1 a) (f2 a)) ->
  uses d (draws E) (bind m1 f1) (bind m2 f2).
Proof.
  intros Hm Hf s. destruct (Hm s) as [Hle Heq]. unfold bind.
  destruct (m2 s) as [[a|e] s1] eqn:Hm2; cbn [snd] in *.
  - destruct (Hf a s1) as [Hle' Heq']. split; [lia|].
    intros Hag. rewrite Heq.
    + apply Heq'.
      replace (rng_pos (snd (f2 a s1)) - rng_pos s1)%nat
        with ((rng_pos (snd (f2 a s1)) - rng_pos s) - (rng_pos s1 - rng_pos s))%nat
        by lia.
      replace (rng_pos s1) with ((rng_pos s1 - rng_pos s) + rng_pos s)%nat at 2 by lia.
      apply agree_later; [lia|exact Hag].
    + eapply agree_shorter; [|exact Hag]. lia.
  - split; [exact Hle|]. intros Hag. now rewrite (Heq Hag).
Qed.

Lemma reads_try {A} (b1 b2 : M A) (h1 h2 : exn -> M A) :
  uses d (draws E) b1 b2 -> (forall e, uses d (draws E) (h1 e) (h2 e)) ->
  uses d (draws E) (try_except b1 h1) (try_except b2 h2).
Proof.
  intros Hb Hh s. destruct (Hb s) as [Hle Heq]. unfold try_except.
  destruct (b2 s) as [[a|e] s1] eqn:Hb2; cbn [snd] in *.
  - split; [exact Hle|]. intros Hag. now rewrite (Heq Hag).
  - destruct (Hh e s1) as [Hle' Heq']. split; [lia|].
    intros Hag. rewrite Heq.
    + apply Heq'.
      replace (rng_pos (snd (h2 e s1)) - rng_pos s1)%nat
        with ((rng_pos (snd (h2 e s1)) - rng_pos s) - (rng_pos s1 - rng_pos s))%nat
        by lia.
      replace (rng_pos s1) with ((rng_pos s1 - rng_pos s) + rng_pos s)%nat at 2 by lia.
      apply agree_later; [lia|exact Hag].
    + eapply agree_shorter; [|exact Hag]. lia.
Qed.

Lemma reads_random : uses d (draws E) (random E') (random E).
Proof.
  intros s. unfold random. cbn [E' with_draws draws snd rng_pos].
  split; [lia|]. intros Hag.
  assert (H0 : d (0 + rng_pos s)%nat = draws E (0 + rng_pos s)%nat)
    by (apply Hag; lia).
  cbn [Nat.add] in H0. now rewrite H0.
Qed.

Ltac reading :=
  repeat lazymatch goal with
    | |- uses _ _ (bind _ _) (bind _ _) => apply reads_bind; [|intros ?]
    | |- uses _ _ (try_except _ _) (try_except _ _) => apply reads_try; [|intros ?]
    | |- uses _ _ (ret _) (ret _) => apply reads_ret
    | |- uses _ _ (lift _) (lift _) => apply reads_lift
    | |- uses _ _ (emit _) (emit _) => apply reads_emit
    | |- uses _ _ get_session get_session => apply reads_get_session
    | |- uses _ _ (random _) (random _) => apply reads_random
    | |- uses _ _ (st_error _) (st_error _) => unfold st_error
    | |- uses _ _ (st_warning _) (st_warning _) => unfold st_warning
    | |- uses _ _ (st_info _) (st_info _) => unfold st_info
    | |- uses _ _ (uniform _ _ _) (uniform _ _ _) => unfold uniform
    | |- uses _ _ (choice _ _) (choice _ _) => unfold choice
    | |- uses _ _ (around _ _) (around _ _) => unfold around
    end.

Lemma reads_sample_row (i : nat) :
  uses d (draws E) (sample_row E' i) (sample_row E i).
Proof. unfold sample_row. reading. Qed.

Lemma reads_for_each (range : list nat) :
  uses d (draws E) (for_each (sample_row E') range) (for_each (sample_row E) range).
Proof.
  induction range as [|i rest IH]; cbn [for_each]; [apply reads_ret|].
  apply reads_bind; [apply reads_sample_row|intros x].
  apply reads_bind; [exact IH|intros xs; apply reads_ret].
Qed.

Lemma reads_generate_sample_data :
  uses d (draws E) (generate_sample_data E') (generate_sample_data E).
Proof. exact (reads_for_each (seq 0 15)). Qed.

Lemma reads_init_supabase_connection :
  uses d (draws E) (init_supabase_connection E') (init_supabase_connection E).
Proof.
  unfold init_supabase_connection. cbn [E' with_draws import_supabase create_client].
  reading. cbv zeta.
  match goal with |- context [if ?b then _ else _] => destruct b end; reading.
Qed.

Lemma reads_insert_job_vacancy (c : client) (role lvl purpose : string)
    (ids : list string) :
  uses d (draws E) (insert_job_vacancy E' c role lvl purpose ids)
                   (insert_job_vacancy E c role lvl purpose ids).
Proof.
  unfold insert_job_vacancy. cbn [E' with_draws now]. cbv zeta. reading.
Qed.

Lemma reads_generate_job_profile (role lvl purpose : string) :
  uses d (draws E) (generate_job_profile jl E' role lvl purpose)
                   (generate_job_profile jl E role lvl purpose).
Proof.
  unfold generate_job_profile, request_profile. cbn [E' with_draws requests_post].
  reading.
Qed.

Lemma reads_execute_matching_query (c : client) (vid : string) :
  uses d (draws E) (execute_matching_query E' c vid) (execute_matching_query E c vid).
Proof.
  unfold execute_matching_query. reading.
  - match goal with a : list row |- _ => destruct a end; reading.
  - apply reads_generate_sample_data.
Qed.

Lemma reads_collect (f : form) (ids : list string) :
  uses d (draws E) (collect jl E' f ids) (collect jl E f ids).
Proof.
  unfold collect. cbn [E' with_draws now].
  apply reads_bind; [apply reads_init_supabase_connection|intros supabase].
  apply reads_bind.
  { destruct supabase as [c|]; [apply reads_insert_job_vacancy|reading]. }
  intros vid.
  apply reads_bind; [apply reads_generate_job_profile|intros profile].
  apply reads_bind; [|intros df; apply reads_ret].
  destruct supabase as [c|]; [destruct vid as [v|]|].
  - apply reads_execute_matching_query.
  - apply reads_bind; [apply reads_generate_sample_data|intros df; apply reads_ret].
  - apply reads_bind; [apply reads_generate_sample_data|intros df; apply reads_ret].
Qed.

Lemma reads_on_generate (f : form) :
  uses d (draws E) (on_generate jl E' f) (on_generate jl E f).
Proof.
  unfold on_generate.
  destruct (negb (all_filled f)); [reading|].
  apply reads_bind; [apply reads_collect|].
  intros [[vid profile] [rows|]].
  - apply reads_bind; [apply reads_lift|intros r]. apply reads_set_results.
  - apply reads_lift.
Qed.

End Draws.

(** C1, as stated, fails: with the same form, session and collaborators,
    two runs whose random generator yields different values store
    different candidate rates, and two runs one second apart store
    different vacancy ids. *)
Lemma C1_same_inputs_different_runs :
  stored (on_generate Inputs.rejecting (Inputs.offline Inputs.draws_a Inputs.noon)
            Inputs.analyst Inputs.fresh) <>
  stored (on_generate Inputs.rejecting (Inputs.offline Inputs.draws_b Inputs.noon)
            Inputs.analyst Inputs.fresh) /\
  stored (on_generate Inputs.rejecting (Inputs.offline Inputs.draws_a Inputs.noon)
            Inputs.analyst Inputs.fresh) <>
  stored (on_generate Inputs.rejecting
            (Inputs.offline Inputs.draws_a Inputs.noon_and_a_second)
            Inputs.analyst Inputs.fresh).
Proof.
  split; intros H.
  - apply (f_equal (option_map (fun r => map rate (talent_df r)))) in H.
    vm_compute in H. discriminate H.
  - apply (f_equal (option_map vacancy_id)) in H.
    vm_compute in H. discriminate H.
Qed.

(** C1, amended: identical inputs alone do not make two runs identical;
    they are identical whenever the runs also get the same clock reading,
    the same answers from the database and the text API, and the same
    values from the random generator for the calls the run makes to it
    (none at all when the query answers with rows): the outcome, the
    stored results and the trace are then the same. *)
Theorem C1_reproducible_given_draws
    (jl : string -> outcome json) (E : env) (d : nat -> Q) (f : form) (s : app) :
  agree d (draws E)
        (rng_pos (snd (on_generate jl E f s)) - rng_pos s) (rng_pos s) ->
  on_generate jl (with_draws E d) f s = on_generate jl E f s.
Proof.
  intros H. exact (proj2 (reads_on_generate jl E d f s) H).
Qed.

Lemma C1_reproducible_given_draws_witness :
  (Inputs.draws_a_then 1200 <> Inputs.draws_a 1200 /\
   on_generate Inputs.rejecting (Inputs.offline Inputs.draws_a_then Inputs.noon)
     Inputs.analyst Inputs.fresh =
   on_generate Inputs.rejecting (Inputs.offline Inputs.draws_a Inputs.noon)
     Inputs.analyst Inputs.fresh) /\
  (Inputs.draws_b 1 <> Inputs.draws_a 1 /\
   on_generate Inputs.rejecting (with_draws (Online.world Online.answering) Inputs.draws_b)
     Inputs.analyst Online.signed_in =
   on_generate Inputs.rejecting (Online.world Online.answering)
     Inputs.analyst Online.signed_in).
Proof.
  split; (split; [discriminate|]).
  - apply (C1_reproducible_given_draws Inputs.rejecting
             (Inputs.offline Inputs.draws_a Inputs.noon) Inputs.draws_a_then
             Inputs.analyst Inputs.fresh).
    assert (Hn : (rng_pos (snd (on_generate Inputs.rejecting
                                  (Inputs.offline Inputs.draws_a Inputs.noon)
                                  Inputs.analyst Inputs.fresh)) <=? 1000)%nat = true)
      by (vm_compute; reflexivity).
    apply Nat.leb_le in Hn.
    intros i Hi. unfold Inputs.draws_a_then.
    change (rng_pos Inputs.fresh) with 0%nat in *.
    cbn [Inputs.offline draws].
    rewrite Nat.add_0_r.
    destruct (Nat.ltb_spec i 1000) as [_|Hge]; [reflexivity|lia].
  - apply (C1_reproducible_given_draws Inputs.rejecting
             (Online.world Online.answering) Inputs.draws_b
             Inputs.analyst Online.signed_in).
    assert (Hn : rng_pos (snd (on_generate Inputs.rejecting
                                 (Online.world Online.answering)
                                 Inputs.analyst Online.signed_in)) = 0%nat)
      by (vm_compute; reflexivity).
    rewrite Hn. intros i Hi. cbn in Hi. lia.
Defined.

(** C6, as stated, fails: in demo mode the candidates are EMP1000 to
    EMP1014, none of the ids 312, 335, 175 is among them, and the run
    returns normally, with no row flagged and benchmark_avg 0. *)
Lemma C6_run_without_benchmarks :
  benchmark_list (benchmark_text Inputs.analyst) = ["312"; "335"; "175"] /\
  fst (on_generate Inputs.rejecting (Inputs.offline Inputs.draws_a Inputs.noon)
         Inputs.analyst Inputs.fresh) = Return tt /\
  option_map (fun r => (List.length (talent_df r),
                        existsb (fun x => Str.isin (ident x) ["312"; "335"; "175"])
                                (talent_df r),
                        existsb is_benchmark (talent_df r),
                        benchmark_avg (stats r)))
    (stored (on_generate Inputs.rejecting (Inputs.offline Inputs.draws_a Inputs.noon)
               Inputs.analyst Inputs.fresh)) =
  Some (15%nat, false, false, 0%Q) /\
  ~ exists e,
      fst (on_generate Inputs.rejecting (Inputs.offline Inputs.draws_a Inputs.noon)
             Inputs.analyst Inputs.fresh) = Raise e.
Proof.
  split; [reflexivity|]. split; [vm_compute; reflexivity|].
  split; [vm_compute; reflexivity|].
  intros [e H]. vm_compute in H. discriminate H.
Qed.

(* ------------------------------------------------------------------ *)
(** ** The per-variable match rate *)

Lemma valid_score_bounds (x : Q) :
  Design.valid_score x = true -> (0 <= x /\ x <= 100)%Q.
Proof.
  unfold Design.valid_score. intros H. apply andb_prop in H.
  destruct H as [H1 H2]. split; now apply Qle_bool_iff.
Qed.

Lemma Qle_bool_false (x y : Q) : Qle_bool x y = false -> (y < x)%Q.
Proof.
  intros H. destruct (Qlt_le_dec y x) as [Hlt|Hle]; [exact Hlt|].
  apply Qle_bool_iff in Hle. congruence.
Qed.

Lemma scaled_gap (c b k : Q) :
  (0 < k)%Q -> (0 < b)%Q ->
  (Qabs (k * c - k * b) / (k * b) * 100 == Qabs (c - b) / b * 100)%Q.
Proof.
  intros Hk Hb.
  assert (Hs : (k * c - k * b == k * (c - b))%Q) by ring.
  rewrite Hs, Qabs_Qmult, (Qabs_pos k) by lra.
  field. split; lra.
Qed.

(** C8, on the rate of the design: for valid scores the rate is unchanged
    when both scores are multiplied by the same positive constant (the
    scaled scores being valid too); equal valid scores, both zero
    included, give 100; a score outside [0,100] gives InvalidScoreError;
    with a positive baseline the rate is a number between 0 and 100. *)
Theorem C8_aggregate_variable :
  (forall c b k,
      Design.valid_score c = true -> Design.valid_score b = true ->
      (0 < k)%Q ->
      Design.valid_score (k * c) = true -> Design.valid_score (k * b) = true ->
      Design.same_result (Design.AggregateVariable (k * c) (k * b))
                         (Design.AggregateVariable c b)) /\
  (forall c b,
      Design.valid_score c = true -> Design.valid_score b = true ->
      (c == b)%Q ->
      Design.same_result (Design.AggregateVariable c b) (Design.Rate 100)) /\
  (forall c b,
      Design.valid_score c = false \/ Design.valid_score b = false ->
      Design.AggregateVariable c b = Design.InvalidScoreError) /\
  (forall c b,
      Design.valid_score c = true -> Design.valid_score b = true ->
      (0 < b)%Q ->
      exists r, Design.AggregateVariable c b = Design.Rate r /\
                (0 <= r /\ r <= 100)%Q).
Proof.
  repeat split.
  - intros c b k Hc Hb Hk Hkc Hkb.
    unfold Design.AggregateVariable. rewrite Hc, Hb, Hkc, Hkb. cbn [andb negb].
    apply valid_score_bounds in Hb. destruct Hb as [Hb0 _].
    destruct (Qle_bool b 0) eqn:Hle.
    + apply Qle_bool_iff in Hle.
      assert (Hbz : (b == 0)%Q) by lra.
      assert (Hkz : Qle_bool (k * b) 0 = true).
      { apply Qle_bool_iff. rewrite Hbz. lra. }
      rewrite Hkz. cbn [negb].
      destruct (Qeq_bool c b) eqn:Hcb, (Qeq_bool (k * c) (k * b)) eqn:Hkcb;
        cbn; try reflexivity.
      * apply Qeq_bool_eq in Hcb. apply Qeq_bool_neq in Hkcb.
        apply Hkcb. now rewrite Hcb.
      * apply Qeq_bool_neq in Hcb. apply Qeq_bool_eq in Hkcb.
        apply Hcb. apply (Qmult_inj_l c b k); [lra|exact Hkcb].
    + apply Qle_bool_false in Hle.
      assert (Hkz : Qle_bool (k * b) 0 = false).
      { destruct (Qle_bool (k * b) 0) eqn:Hq; [|reflexivity].
        apply Qle_bool_iff in Hq.
        pose proof (Qmult_lt_0_compat k b Hk Hle). lra. }
      rewrite Hkz. cbn [negb Design.same_result].
      now rewrite (scaled_gap c b k Hk Hle).
  - intros c b Hc Hb Hcb.
    unfold Design.AggregateVariable. rewrite Hc, Hb. cbn [andb negb].
    destruct (Qle_bool b 0) eqn:Hle; cbn [negb].
    + assert (Hq : Qeq_bool c b = true) by now apply Qeq_bool_iff.
      rewrite Hq. cbn. reflexivity.
    + apply Qle_bool_false in Hle. cbn [Design.same_result].
      assert (Hz : (Qabs (c - b) == 0)%Q).
      { assert (Hd : (c - b == 0)%Q) by lra. now rewrite Hd. }
      rewrite Hz.
      assert (Hm : (0 / b * 100 == 0)%Q) by (field; lra).
      rewrite Hm, Q.min_r by lra. ring.
  - intros c b H. unfold Design.AggregateVariable.
    destruct H as [H|H]; rewrite H; [reflexivity|].
    now rewrite andb_false_r.
  - intros c b Hc Hb Hpos.
    unfold Design.AggregateVariable. rewrite Hc, Hb. cbn [andb negb].
    assert (Hle : Qle_bool b 0 = false).
    { destruct (Qle_bool b 0) eqn:Hq; [|reflexivity].
      apply Qle_bool_iff in Hq. lra. }
    rewrite Hle. cbn [negb]. eexists. split; [reflexivity|].
    assert (Hg : (0 <= Qabs (c - b) / b * 100)%Q).
    { apply Qmult_le_0_compat; [|lra].
      apply Qle_shift_div_l; [exact Hpos|].
      rewrite Qmult_0_l. apply Qabs_nonneg. }
    set (gap := (Qabs (c - b) / b * 100)%Q) in *.
    destruct (Q.min_spec 100 gap) as [[Hlt Hm]|[Hge Hm]];
      rewrite Hm; split; lra.
Qed.

Lemma C8_aggregate_variable_witness :
  Design.same_result (Design.AggregateVariable ((1 # 2) * 60) ((1 # 2) * 80))
                     (Design.AggregateVariable 60 80) /\
  Design.same_result (Design.AggregateVariable 0 0) (Design.Rate 100) /\
  Design.AggregateVariable 101 50 = Design.InvalidScoreError /\
  Design.AggregateVariable 50 (-1) = Design.InvalidScoreError /\
  exists r, Design.AggregateVariable 60 80 = Design.Rate r /\ (0 <= r /\ r <= 100)%Q.
Proof.
  destruct C8_aggregate_variable as (Hscale & Hsame & Hbad & Hrate).
  split; [apply Hscale; reflexivity|].
  split; [apply Hsame; reflexivity|].
  split; [apply Hbad; left; reflexivity|].
  split; [apply Hbad; right; reflexivity|].
  apply Hrate; reflexivity.
Defined.

(* ------------------------------------------------------------------ *)
(** ** The end-to-end scenario *)

(** Three candidates with rates 95.0, 82.0 and 61.0, the first one a
    benchmark: averages 79.3 and 95.0, two top talents, and one
    candidate in each of the buckets 90-100, 80-89 and 60-69. *)
Example scenario_analytics :
  match analyse None JNull ["312"] Inputs.scenario with
  | Return r =>
      stats r = mk_analytics (793 # 10) 95 2 /\
      distribution_of r =
      [("90-100", 1%nat); ("80-89", 1%nat); ("70-79", 0%nat);
       ("60-69", 1%nat); ("<60", 0%nat)]
  | Raise _ => False
  end.
Proof. vm_compute. split; reflexivity. Qed.

(** The benchmark ids of the form are cut after the third. *)
Example benchmark_list_of_four :
  benchmark_list " 312,335 , 175 ,999" = ["312"; "335"; "175"].
Proof. reflexivity. Qed.

(** The empty text still yields one (empty) id. *)
Example benchmark_list_of_empty : benchmark_list "" = [""].
Proof. reflexivity. Qed.

(* ================================================================== *)
(** * Further properties of the script *)

(* ------------------------------------------------------------------ *)
(** ** Counts, colours and buckets *)

Lemma analyse_stats (vid : option string) (jp : json) (ids : list string)
    (df : list row) (r : results) :
  analyse vid jp ids df = Return r ->
  talent_df r = sort_values (flag ids df) /\
  top_talent_count (stats r) = top_talent_count_of (map rate (talent_df r)) /\
  avg_match_of (map rate (talent_df r)) = Return (avg_match (stats r)) /\
  benchmark_avg_of (benchmark_rates (talent_df r)) = Return (benchmark_avg (stats r)).
Proof.
  unfold analyse, benchmark_rates. intros H.
  destruct (avg_match_of _) as [a|] eqn:Ha; [|discriminate H].
  destruct (benchmark_avg_of _) as [b|] eqn:Hb; [|discriminate H].
  injection H as <-. cbn [talent_df stats top_talent_count avg_match benchmark_avg].
  repeat split; assumption.
Qed.

Lemma top_talent_is_two_buckets (match_rates : list Q) :
  top_talent_count_of match_rates =
  (bucket "90-100" match_rates + bucket "80-89" match_rates)%nat.
Proof.
  unfold bucket, distribution_data, top_talent_count_of. cbn [lookup String.eqb].
  cbn.
  induction match_rates as [|r rs IH]; [reflexivity|].
  cbn [filter].
  assert (H98 : Qle_bool 90 r = true -> Qle_bool 80 r = true)
    by (apply Qle_bool_weaken; discriminate).
  destruct (Qle_bool 90 r), (Qle_bool 80 r); cbn [andb negb List.length];
    try (specialize (H98 eq_refl); discriminate H98); lia.
Qed.

(** X1: the number of top talents shown in the overview is the sum of
    the counts the distribution chart shows for 90-100 and 80-89. *)
Theorem X1_top_talent_is_two_buckets (vid : option string) (jp : json)
    (ids : list string) (df : list row) (r : results) :
  analyse vid jp ids df = Return r ->
  top_talent_count (stats r) =
  (bucket "90-100" (map rate (talent_df r)) + bucket "80-89" (map rate (talent_df r)))%nat.
Proof.
  intros H. destruct (analyse_stats _ _ _ _ _ H) as (_ & Ht & _).
  rewrite Ht. apply top_talent_is_two_buckets.
Qed.

Lemma X1_top_talent_is_two_buckets_witness :
  exists r,
    analyse None JNull ["312"] Inputs.scenario = Return r /\
    top_talent_count (stats r) =
    (bucket "90-100" (map rate (talent_df r)) + bucket "80-89" (map rate (talent_df r)))%nat.
Proof.
  destruct (analyse None JNull ["312"] Inputs.scenario) as [r|e] eqn:H.
  - exists r. split; [reflexivity|].
    exact (X1_top_talent_is_two_buckets None JNull ["312"] Inputs.scenario r H).
  - vm_compute in H. discriminate H.
Defined.

(** X2: the colour classes of [get_match_color] are the ranges of the
    distribution chart: green is 90-100, blue 80-89, amber 70-79, and red
    is everything below 70 (the ranges 60-69 and <60 together). *)
Theorem X2_colours_are_buckets (match_rates : list Q) :
  coloured "#10b981" match_rates = bucket "90-100" match_rates /\
  coloured "#3b82f6" match_rates = bucket "80-89" match_rates /\
  coloured "#f59e0b" match_rates = bucket "70-79" match_rates /\
  coloured "#ef4444" match_rates =
    (bucket "60-69" match_rates + bucket "<60" match_rates)%nat.
Proof.
  unfold coloured, bucket, distribution_data, get_match_color. cbn.
  induction match_rates as [|r rs IH]; [repeat split|].
  destruct IH as (IH1 & IH2 & IH3 & IH4).
  cbn [filter].
  assert (H98 : Qle_bool 90 r = true -> Qle_bool 80 r = true)
    by (apply Qle_bool_weaken; discriminate).
  assert (H87 : Qle_bool 80 r = true -> Qle_bool 70 r = true)
    by (apply Qle_bool_weaken; discriminate).
  assert (H76 : Qle_bool 70 r = true -> Qle_bool 60 r = true)
    by (apply Qle_bool_weaken; discriminate).
  destruct (Qle_bool 90 r), (Qle_bool 80 r), (Qle_bool 70 r), (Qle_bool 60 r);
    try (specialize (H98 eq_refl); discriminate H98);
    try (specialize (H87 eq_refl); discriminate H87);
    try (specialize (H76 eq_refl); discriminate H76);
    cbn; repeat split; lia.
Qed.

(* ------------------------------------------------------------------ *)
(** ** The top talents are the head of the ranking *)

#[local] Instance not_below_transitive : RelationClasses.Transitive not_below.
Proof. intros x y z Hxy Hyz. unfold not_below in *. eapply Qle_trans; eassumption. Qed.

Lemma none_at_80 (a : ranked) (l : list ranked) :
  Forall (not_below a) l -> Qle_bool 80 (rate a) = false ->
  top_talent_count_of (map rate l) = 0%nat.
Proof.
  intros Hall Ha. unfold top_talent_count_of.
  induction Hall as [|y l Hy _ IH]; [reflexivity|]. cbn [map filter].
  destruct (Qle_bool 80 (rate y)) eqn:Hy80; [|exact IH].
  apply Qle_bool_iff in Hy80. apply Qle_bool_false in Ha.
  unfold not_below in Hy. lra.
Qed.

Lemma top_talent_prefix (l : list ranked) :
  Sorted not_below l ->
  forall i x, nth_error l i = Some x ->
              ((i < top_talent_count_of (map rate l))%nat <-> (80 <= rate x)%Q).
Proof.
  intros Hs. apply Sorted_StronglySorted in Hs; [|exact not_below_transitive].
  induction Hs as [|a l Hs IH Hall]; intros i x Hx.
  - now destruct i.
  - unfold top_talent_count_of in *. cbn [map filter].
    destruct (Qle_bool 80 (rate a)) eqn:Ha; cbn [List.length].
    + destruct i as [|i]; cbn [nth_error] in Hx.
      * injection Hx as <-. apply Qle_bool_iff in Ha. split; [easy|lia].
      * rewrite <- (IH i x Hx). lia.
    + pose proof (none_at_80 a l Hall Ha) as Hz.
      unfold top_talent_count_of in Hz. rewrite Hz.
      apply Qle_bool_false in Ha.
      split; [lia|]. intros Hx80. exfalso.
      destruct i as [|i]; cbn [nth_error] in Hx.
      * injection Hx as <-. lra.
      * apply nth_error_In in Hx. rewrite Forall_forall in Hall.
        specialize (Hall x Hx). unfold not_below in Hall. lra.
Qed.

(** X3: in the stored ranking the candidates with a rate of at least 80
    are exactly the first top_talent_count rows. *)
Theorem X3_top_talents_lead (vid : option string) (jp : json)
    (ids : list string) (df : list row) (r : results) :
  analyse vid jp ids df = Return r ->
  forall i x, nth_error (talent_df r) i = Some x ->
              ((i < top_talent_count (stats r))%nat <-> (80 <= rate x)%Q).
Proof.
  intros H. destruct (analyse_stats _ _ _ _ _ H) as (Ht & Hc & _).
  rewrite Hc. apply top_talent_prefix. rewrite Ht. apply sort_values_sorted.
Qed.

Lemma X3_top_talents_lead_witness :
  exists r,
    analyse None JNull ["312"] Inputs.scenario = Return r /\
    forall i x, nth_error (talent_df r) i = Some x ->
                ((i < top_talent_count (stats r))%nat <-> (80 <= rate x)%Q).
Proof.
  destruct (analyse None JNull ["312"] Inputs.scenario) as [r|e] eqn:H.
  - exists r. split; [reflexivity|].
    exact (X3_top_talents_lead None JNull ["312"] Inputs.scenario r H).
  - vm_compute in H. discriminate H.
Defined.

(* ------------------------------------------------------------------ *)
(** ** Sums, means and their bounds *)

Lemma fold_sum_shift (l : list Q) (a : Q) :
  (fold_left Qplus l a == a + fold_left Qplus l 0)%Q.
Proof.
  revert a. induction l as [|x l IH]; intros a; cbn [fold_left].
  - ring.
  - rewrite (IH (a + x)%Q), (IH (0 + x)%Q). ring.
Qed.

Lemma sum_cons (x : Q) (l : list Q) : (Num.sum (x :: l) == x + Num.sum l)%Q.
Proof.
  unfold Num.sum. cbn [fold_left]. rewrite fold_sum_shift. ring.
Qed.

Lemma len_cons {A} (x : A) (l : list A) : (Num.len (x :: l) == 1 + Num.len l)%Q.
Proof.
  unfold Num.len. cbn [List.length]. rewrite Nat2Z.inj_succ, <- Z.add_1_l.
  now rewrite inject_Z_plus.
Qed.

Lemma len_nonneg {A} (l : list A) : (0 <= Num.len l)%Q.
Proof.
  unfold Num.len. change 0%Q with (inject_Z 0). rewrite <- Zle_Qle. lia.
Qed.

Lemma len_positive {A} (l : list A) : l <> [] -> (0 < Num.len l)%Q.
Proof.
  intros H. destruct l as [|x l]; [congruence|].
  rewrite len_cons. pose proof (len_nonneg l). lra.
Qed.

Lemma sum_permutation (l l' : list Q) :
  Permutation l l' -> (Num.sum l == Num.sum l')%Q.
Proof.
  induction 1 as [|x l l' _ IH|x y l|l l' l'' _ IH1 _ IH2].
  - reflexivity.
  - now rewrite !sum_cons, IH.
  - rewrite !sum_cons. ring.
  - now rewrite IH1.
Qed.

Lemma sum_between (lo hi : Q) (l : list Q) :
  Forall (fun x => lo <= x /\ x <= hi)%Q l ->
  (lo * Num.len l <= Num.sum l /\ Num.sum l <= hi * Num.len l)%Q.
Proof.
  induction 1 as [|x l [Hlo Hhi] _ [IHlo IHhi]].
  - change (Num.sum []) with 0%Q. change (@Num.len Q []) with 0%Q. split; lra.
  - rewrite sum_cons, len_cons. split; lra.
Qed.

Lemma mean_between (lo hi : Q) (l : list Q) :
  l <> [] ->
  Forall (fun x => lo <= x /\ x <= hi)%Q l ->
  (lo <= mean l /\ mean l <= hi)%Q.
Proof.
  intros Hne Hall. destruct (sum_between lo hi l Hall) as [Hlo Hhi].
  pose proof (len_positive l Hne) as Hpos. unfold mean. split.
  - apply Qle_shift_div_l; assumption.
  - apply Qle_shift_div_r; assumption.
Qed.

(** Rounding does not cross an integer. *)
Lemma round_half_even_between (a b : Z) (x : Q) :
  (inject_Z a <= x)%Q -> (x <= inject_Z b)%Q ->
  (a <= Num.round_half_even x <= b)%Z.
Proof.
  intros Ha Hb. unfold Num.round_half_even.
  pose proof (Qfloor_resp_le _ _ Ha) as Hfa. rewrite Qfloor_Z in Hfa.
  pose proof (Qfloor_resp_le _ _ Hb) as Hfb. rewrite Qfloor_Z in Hfb.
  pose proof (Qfloor_le x) as Hfl.
  assert (Hcase : (Qfloor x < b)%Z \/ (x == inject_Z (Qfloor x))%Q).
  { destruct (Z.eq_dec (Qfloor x) b) as [He|Hn]; [right|left; lia].
    rewrite He in *. lra. }
  destruct (x - inject_Z (Qfloor x) ?= 1 # 2)%Q eqn:C.
  - destruct (Z.even (Qfloor x)); [lia|].
    apply Qeq_alt in C. destruct Hcase as [Hlt|Heq]; [lia|lra].
  - lia.
  - apply Qgt_alt in C. destruct Hcase as [Hlt|Heq]; [lia|lra].
Qed.

Lemma round1_between (a b : Z) (x : Q) :
  (a # 10 <= x)%Q -> (x <= b # 10)%Q ->
  (a # 10 <= Num.round1 x /\ Num.round1 x <= b # 10)%Q.
Proof.
  intros Ha Hb. unfold Num.round1. rewrite Qred_correct.
  rewrite (tenths_as_product a) in Ha. rewrite (tenths_as_product b) in Hb.
  destruct (round_half_even_between a b (x * 10)) as [H1 H2]; [lra|lra|].
  rewrite (tenths_as_product a), (tenths_as_product b),
    (tenths_as_product (Num.round_half_even (x * 10))).
  rewrite Zle_Qle in H1, H2. split; lra.
Qed.

Lemma round_half_even_same (x y : Q) :
  (x == y)%Q -> Num.round_half_even x = Num.round_half_even y.
Proof.
  intros H. unfold Num.round_half_even.
  rewrite (Qfloor_comp _ _ H).
  assert (Hd : (x - inject_Z (Qfloor y) == y - inject_Z (Qfloor y))%Q)
    by now rewrite H.
  now rewrite (Qcompare_comp _ _ Hd _ _ (Qeq_refl (1 # 2))).
Qed.

Lemma round1_same (x y : Q) : (x == y)%Q -> Num.round1 x = Num.round1 y.
Proof.
  intros H. unfold Num.round1.
  rewrite (round_half_even_same (x * 10) (y * 10)); [reflexivity|].
  now rewrite H.
Qed.

Lemma rates_of_sorted (ids : list string) (df : list row) :
  Permutation (map final_match_rate df) (map rate (sort_values (flag ids df))).
Proof.
  eapply perm_trans; [|apply Permutation_map, sort_values_perm].
  unfold flag. rewrite map_map. apply Permutation_refl.
Qed.

(** X4: when every candidate's rate lies between two one-decimal bounds
    (such as 0 and 100), so does avg_match, and so does benchmark_avg
    unless no candidate is a benchmark (then it is 0); the number of top
    talents never exceeds the number of candidates. *)
Theorem X4_analytics_within_bounds (vid : option string) (jp : json)
    (ids : list string) (df : list row) (r : results) (a b : Z) :
  analyse vid jp ids df = Return r ->
  Forall (fun x => a # 10 <= final_match_rate x /\ final_match_rate x <= b # 10)%Q df ->
  (a # 10 <= avg_match (stats r) /\ avg_match (stats r) <= b # 10)%Q /\
  (benchmark_rates (talent_df r) = [] /\ benchmark_avg (stats r) = 0%Q \/
   (a # 10 <= benchmark_avg (stats r) /\ benchmark_avg (stats r) <= b # 10)%Q) /\
  (top_talent_count (stats r) <= List.length df)%nat.
Proof.
  intros H Hall.
  destruct (analyse_stats _ _ _ _ _ H) as (Ht & Hc & Ha & Hb).
  assert (Hrates : Forall (fun x => a # 10 <= x /\ x <= b # 10)%Q
                          (map rate (talent_df r))).
  { rewrite Ht. eapply Permutation_Forall; [apply rates_of_sorted|].
    apply Forall_map. exact Hall. }
  assert (Hne : map rate (talent_df r) <> []).
  { intros Hnil. unfold avg_match_of in Ha. rewrite Hnil in Ha. discriminate Ha. }
  split; [|split].
  - unfold avg_match_of in Ha. rewrite (mean_round1_returns _ Hne) in Ha.
    injection Ha as <-.
    now apply round1_between; apply (mean_between _ _ _ Hne Hrates).
  - rewrite benchmark_avg_of_returns in Hb. injection Hb as Hb.
    destruct (benchmark_rates (talent_df r)) as [|x xs] eqn:Hbr.
    + left. now split.
    + right. rewrite <- Hb.
      assert (Hsub : Forall (fun x => a # 10 <= x /\ x <= b # 10)%Q (x :: xs)).
      { rewrite <- Hbr. unfold benchmark_rates. apply Forall_map.
        apply Forall_forall. intros y Hy. apply filter_In in Hy.
        destruct Hy as [Hy _]. rewrite Forall_forall in Hrates.
        apply Hrates. now apply in_map. }
      assert (Hcons : x :: xs <> []) by discriminate.
      now apply round1_between; apply (mean_between _ _ _ Hcons Hsub).
  - rewrite Hc. unfold top_talent_count_of.
    eapply Nat.le_trans; [apply filter_length_le|].
    rewrite length_map, Ht.
    rewrite <- (Permutation_length (sort_values_perm _)).
    unfold flag. now rewrite length_map.
Qed.

Lemma X4_analytics_within_bounds_witness :
  exists r,
    analyse None JNull ["312"] Inputs.scenario = Return r /\
    (0 # 10 <= avg_match (stats r) /\ avg_match (stats r) <= 1000 # 10)%Q.
Proof.
  destruct (analyse None JNull ["312"] Inputs.scenario) as [r|e] eqn:H.
  - exists r. split; [reflexivity|].
    refine (proj1 (X4_analytics_within_bounds None JNull ["312"] Inputs.scenario
                     r 0 1000 H _)).
    repeat constructor; cbn; discriminate.
  - vm_compute in H. discriminate H.
Defined.

(* ------------------------------------------------------------------ *)
(** ** The analytics do not depend on the order of the rows *)

Lemma permutation_filter {A} (p : A -> bool) (l l' : list A) :
  Permutation l l' -> Permutation (filter p l) (filter p l').
Proof.
  induction 1 as [|x l l' _ IH|x y l|l l' l'' _ IH1 _ IH2]; cbn [filter].
  - constructor.
  - destruct (p x); [now constructor|exact IH].
  - destruct (p x), (p y); try apply Permutation_refl; apply perm_swap.
  - eapply perm_trans; eassumption.
Qed.

Lemma mean_permutation (l l' : list Q) :
  Permutation l l' -> (mean l == mean l')%Q.
Proof.
  intros H. unfold mean, Num.len.
  now rewrite (sum_permutation _ _ H), (Permutation_length H).
Qed.

Lemma mean_round1_permutation (l l' : list Q) :
  Permutation l l' -> mean_round1 l = mean_round1 l'.
Proof.
  intros H. destruct l as [|x l].
  - apply Permutation_nil in H. now subst.
  - assert (Hl' : l' <> []).
    { intros ->. apply Permutation_sym, Permutation_nil in H. discriminate H. }
    rewrite !mean_round1_returns by (assumption || discriminate).
    f_equal. apply round1_same, mean_permutation, H.
Qed.

Lemma benchmark_avg_of_permutation (l l' : list Q) :
  Permutation l l' -> benchmark_avg_of l = benchmark_avg_of l'.
Proof.
  intros H. rewrite !benchmark_avg_of_returns.
  destruct l as [|x l].
  - apply Permutation_nil in H. now subst.
  - destruct l' as [|y l'].
    + apply Permutation_sym, Permutation_nil in H. discriminate H.
    + f_equal. apply round1_same, mean_permutation, H.
Qed.

Lemma flag_permutation (ids : list string) (df df' : list row) :
  Permutation df df' ->
  Permutation (sort_values (flag ids df)) (sort_values (flag ids df')).
Proof.
  intros H.
  eapply perm_trans; [apply Permutation_sym, sort_values_perm|].
  eapply perm_trans; [|apply sort_values_perm].
  unfold flag. now apply Permutation_map.
Qed.

(** X5: the summary analytics do not depend on the order in which the
    query (or the sample generator) returned the candidates: two frames
    with the same rows in any order give the same avg_match,
    benchmark_avg and top_talent_count, and rankings with the same rows. *)
Theorem X5_analytics_ignore_row_order (vid : option string) (jp : json)
    (ids : list string) (df df' : list row) (r : results) :
  Permutation df df' ->
  analyse vid jp ids df = Return r ->
  exists r',
    analyse vid jp ids df' = Return r' /\
    stats r' = stats r /\
    Permutation (talent_df r) (talent_df r').
Proof.
  intros Hp H.
  pose proof (flag_permutation ids df df' Hp) as Hs.
  assert (Hm : Permutation (map rate (sort_values (flag ids df)))
                           (map rate (sort_values (flag ids df'))))
    by now apply Permutation_map.
  assert (Hbm : Permutation
                  (map rate (filter is_benchmark (sort_values (flag ids df))))
                  (map rate (filter is_benchmark (sort_values (flag ids df')))))
    by now apply Permutation_map, permutation_filter.
  unfold analyse in *. unfold avg_match_of in *.
  rewrite <- (mean_round1_permutation _ _ Hm).
  rewrite <- (benchmark_avg_of_permutation _ _ Hbm).
  destruct (mean_round1 _) as [a|]; [|discriminate H].
  destruct (benchmark_avg_of _) as [b|]; [|discriminate H].
  injection H as <-. eexists. split; [reflexivity|].
  cbn [stats talent_df]. split; [|exact Hs].
  f_equal. unfold top_talent_count_of.
  symmetry. apply Permutation_length, permutation_filter, Hm.
Qed.

Lemma X5_analytics_ignore_row_order_witness :
  exists r r',
    analyse None JNull ["312"] Inputs.scenario = Return r /\
    analyse None JNull ["312"] (rev Inputs.scenario) = Return r' /\
    stats r' = stats r.
Proof.
  destruct (analyse None JNull ["312"] Inputs.scenario) as [r|e] eqn:H.
  - destruct (X5_analytics_ignore_row_order None JNull ["312"] Inputs.scenario
                (rev Inputs.scenario) r (Permutation_rev _) H) as (r' & Hr' & Hst & _).
    exists r, r'. repeat split; assumption.
  - vm_compute in H. discriminate H.
Defined.

(* ------------------------------------------------------------------ *)
(** ** How many rows can be flagged *)

Lemma isin_In (x : string) (xs : list string) :
  Str.isin x xs = true <-> In x xs.
Proof.
  unfold Str.isin. rewrite existsb_exists. split.
  - intros [y [Hy He]]. apply String.eqb_eq in He. now subst.
  - intros H. exists x. split; [exact H|apply String.eqb_refl].
Qed.

(** The flagged rows of a frame with distinct ids have distinct ids. *)
Lemma flagged_ids_distinct (talent : list ranked) :
  NoDup (map ident talent) -> NoDup (map ident (filter is_benchmark talent)).
Proof.
  induction talent as [|x rest IH]; intros Hd; cbn [map filter] in *.
  - constructor.
  - apply NoDup_cons_iff in Hd. destruct Hd as [Hfresh Hrest].
    destruct (is_benchmark x); [|exact (IH Hrest)].
    cbn [map]. apply NoDup_cons_iff. split; [|exact (IH Hrest)].
    intros Hin. apply Hfresh.
    apply in_map_iff in Hin. destruct Hin as (y & Hy & Hyin).
    apply filter_In in Hyin. destruct Hyin as [Hyin _].
    rewrite <- Hy. now apply in_map.
Qed.

(** X6: when the candidates' ids are all different, at most three rows
    are flagged as benchmark, whatever the number of ids typed in the
    form. *)
Theorem X6_at_most_three_benchmarks (vid : option string) (jp : json)
    (text : string) (df : list row) (r : results) :
  analyse vid jp (benchmark_list text) df = Return r ->
  NoDup (map employee_id df) ->
  (List.length (filter is_benchmark (talent_df r)) <= 3)%nat.
Proof.
  intros H Hnd.
  destruct (analyse_flags _ _ _ _ _ H) as [_ Hflags].
  destruct (analyse_stats _ _ _ _ _ H) as (Ht & _).
  eapply Nat.le_trans; [|apply (firstn_le_length 3 (supplied_ids text))].
  fold (benchmark_list text).
  rewrite <- (length_map ident).
  apply NoDup_incl_length.
  - apply flagged_ids_distinct. rewrite Ht.
    eapply Permutation_NoDup; [apply Permutation_map, sort_values_perm|].
    unfold flag. rewrite map_map. exact Hnd.
  - intros x Hx. apply in_map_iff in Hx. destruct Hx as [y [<- Hy]].
    apply filter_In in Hy. destruct Hy as [Hy Hb].
    rewrite Forall_forall in Hflags. rewrite (Hflags y Hy) in Hb.
    now apply isin_In.
Qed.

Lemma X6_at_most_three_benchmarks_witness :
  exists r,
    analyse None JNull (benchmark_list "312, 400, 401, 312") Inputs.scenario = Return r /\
    (List.length (filter is_benchmark (talent_df r)) <= 3)%nat.
Proof.
  destruct (analyse None JNull (benchmark_list "312, 400, 401, 312") Inputs.scenario)
    as [r|e] eqn:H.
  - exists r. split; [reflexivity|].
    apply (X6_at_most_three_benchmarks None JNull "312, 400, 401, 312"
             Inputs.scenario r H).
    repeat constructor; cbn; intuition discriminate.
  - vm_compute in H. discriminate H.
Defined.

(* ------------------------------------------------------------------ *)
(** ** The sample data *)

Lemma choice_index_in_range (u : Q) (xs : list string) :
  xs <> [] -> (0 <= u /\ u < 1)%Q ->
  In (nth (Z.to_nat (Qfloor (u * Num.len xs))) xs EmptyString) xs.
Proof.
  intros Hne [Hu0 Hu1]. apply nth_In.
  pose proof (len_positive xs Hne) as Hpos.
  assert (Hlt : (u * Num.len xs < Num.len xs)%Q).
  { setoid_replace (Num.len xs) with (1 * Num.len xs)%Q at 2 by ring.
    now apply Qmult_lt_compat_r. }
  pose proof (Qfloor_le (u * Num.len xs)) as Hfl.
  assert (Hz : (Qfloor (u * Num.len xs) < Z.of_nat (List.length xs))%Z).
  { rewrite Zlt_Qlt. unfold Num.len in *. lra. }
  assert (Hn : (0 < List.length xs)%nat) by (destruct xs; [congruence|cbn; lia]).
  lia.
Qed.

Lemma around_in_range (base u : Q) :
  (70 <= base /\ base <= 95)%Q -> (0 <= u /\ u < 1)%Q ->
  (65 <= Num.round_half_even (base + (-5 + (5 - -5) * u)) <= 100)%Z.
Proof.
  intros [Hb1 Hb2] [Hu1 Hu2].
  apply round_half_even_between.
  - change (inject_Z 65) with 65%Q. lra.
  - change (inject_Z 100) with 100%Q. lra.
Qed.

Lemma sample_row_runs (E : env) (i : nat) (s : app) :
  exists r,
    sample_row E i s = (Return r, drawn 13 s) /\
    employee_id r = "EMP" ++ Str.of_nat (1000 + i) /\
    name r = "Employee " ++ Str.of_nat (1000 + i) /\
    (unit_draws E -> sample_like r).
Proof.
  cbv [sample_row uniform choice around bind ret random].
  cbn [session rng_pos trace].
  eexists. split; [reflexivity|]. split; [reflexivity|]. split; [reflexivity|].
  intros Hu. unfold sample_like.
  cbn [final_match_rate position grade directorate tgv_scores tv_scores map fst].
  assert (Hbase : (70 <= 70 + (95 - 70) * draws E (rng_pos s) /\
                   70 + (95 - 70) * draws E (rng_pos s) <= 95)%Q).
  { destruct (Hu (rng_pos s)). split; lra. }
  split.
  { destruct (round1_between 700 950 (70 + (95 - 70) * draws E (rng_pos s)))
      as [H1 H2]; [destruct Hbase; lra|destruct Hbase; lra|].
    split; lra. }
  split; [apply round1_one_decimal|].
  split; [apply choice_index_in_range; [discriminate|apply Hu]|].
  split; [apply choice_index_in_range; [discriminate|apply Hu]|].
  split; [apply choice_index_in_range; [discriminate|apply Hu]|].
  split; [reflexivity|]. split; [reflexivity|].
  split; repeat constructor; unfold score_in_range; cbn [snd];
    apply around_in_range; (exact Hbase || apply Hu).
Qed.

Lemma drawn_drawn (n k : nat) (s : app) : drawn n (drawn k s) = drawn (k + n) s.
Proof. unfold drawn. cbn [session rng_pos trace]. f_equal. lia. Qed.

Lemma for_each_sample_rows (E : env) (range : list nat) (s : app) :
  exists rows,
    for_each (sample_row E) range s = (Return rows, drawn (13 * List.length range) s) /\
    map employee_id rows = map (fun i => "EMP" ++ Str.of_nat (1000 + i)) range /\
    (unit_draws E -> Forall sample_like rows).
Proof.
  revert s. induction range as [|i rest IH]; intros s.
  - exists []. split; [|split; [reflexivity|constructor]].
    cbn [for_each ret List.length]. unfold drawn. now destruct s.
  - destruct (sample_row_runs E i s) as (r & Hr & Hid & _ & Hlike).
    destruct (IH (drawn 13 s)) as (rows & Hrows & Hids & Hall).
    exists (r :: rows). split; [|split].
    + cbn [for_each]. unfold bind at 1. rewrite Hr.
      unfold bind at 1. rewrite Hrows. unfold ret.
      rewrite drawn_drawn. do 2 f_equal. cbn [List.length]. lia.
    + cbn [map]. now rewrite Hid, Hids.
    + intros Hu. constructor; [now apply Hlike|now apply Hall].
Qed.

Lemma generate_sample_data_runs (E : env) (s : app) :
  exists rows,
    generate_sample_data E s = (Return rows, drawn 195 s) /\
    map employee_id rows = sample_ids /\
    (unit_draws E -> Forall sample_like rows).
Proof. exact (for_each_sample_rows E (seq 0 15) s). Qed.

(** X7: the sample generator never fails and always returns fifteen
    candidates with the ids EMP1000 to EMP1014 in this order, all
    different; it changes neither the session nor what is shown. *)
Theorem X7_sample_data_shape (E : env) (s : app) :
  exists rows s',
    generate_sample_data E s = (Return rows, s') /\
    session s' = session s /\
    trace s' = trace s /\
    List.length rows = 15%nat /\
    map employee_id rows = sample_ids /\
    NoDup (map employee_id rows) /\
    nth_error (map employee_id rows) 0 = Some "EMP1000" /\
    nth_error (map employee_id rows) 14 = Some "EMP1014".
Proof.
  destruct (generate_sample_data_runs E s) as (rows & Hrun & Hids & _).
  exists rows, (drawn 195 s). split; [exact Hrun|].
  split; [reflexivity|]. split; [reflexivity|].
  split; [now rewrite <- (length_map employee_id), Hids|].
  split; [exact Hids|]. rewrite Hids.
  split; [|split; reflexivity].
  vm_compute. repeat constructor; cbn; intuition discriminate.
Qed.

Lemma low_buckets_empty (rates : list Q) :
  Forall (fun x => 70 <= x)%Q rates ->
  bucket "60-69" rates = 0%nat /\ bucket "<60" rates = 0%nat.
Proof.
  unfold bucket, distribution_data. cbn.
  induction 1 as [|x l Hx _ [IH1 IH2]]; [split; reflexivity|].
  cbn [filter].
  assert (H70 : Qle_bool 70 x = true) by now apply Qle_bool_iff.
  assert (H60 : Qle_bool 60 x = true)
    by (apply (Qle_bool_weaken 60 70); [discriminate|exact H70]).
  rewrite H70, H60. cbn [andb negb]. now split.
Qed.

(** X8: when the random generator yields values in [0, 1), every sample
    candidate has a one-decimal rate between 70 and 95, a position, grade
    and directorate from the three lists of choices, and nine scores
    between 65 and 100; so the chart of a sample frame shows no candidate
    below 70. *)
Theorem X8_sample_data_ranges (E : env) (s : app) :
  unit_draws E ->
  exists rows,
    fst (generate_sample_data E s) = Return rows /\
    Forall sample_like rows /\
    bucket "60-69" (map final_match_rate rows) = 0%nat /\
    bucket "<60" (map final_match_rate rows) = 0%nat.
Proof.
  intros Hu. destruct (generate_sample_data_runs E s) as (rows & Hrun & _ & Hlike).
  exists rows. rewrite Hrun. split; [reflexivity|].
  split; [now apply Hlike|].
  apply low_buckets_empty, Forall_map.
  eapply Forall_impl; [|apply Hlike, Hu].
  intros r Hr. unfold sample_like in Hr. tauto.
Qed.

Lemma draws_a_unit : unit_draws (Inputs.offline Inputs.draws_a Inputs.noon).
Proof.
  intros n. cbn [Inputs.offline draws]. unfold Inputs.draws_a.
  pose proof (Nat.mod_upper_bound (n * 37) 100 ltac:(discriminate)) as Hm.
  unfold Qle, Qlt. cbn [Qnum Qden]. split; lia.
Qed.

Lemma X8_sample_data_ranges_witness :
  exists rows,
    fst (generate_sample_data (Inputs.offline Inputs.draws_a Inputs.noon) Inputs.fresh)
    = Return rows /\
    Forall sample_like rows /\
    bucket "60-69" (map final_match_rate rows) = 0%nat /\
    bucket "<60" (map final_match_rate rows) = 0%nat.
Proof.
  exact (X8_sample_data_ranges (Inputs.offline Inputs.draws_a Inputs.noon)
           Inputs.fresh draws_a_unit).
Defined.

(* ------------------------------------------------------------------ *)
(** ** What the steps of a run may change *)

Section Steps.

Variable R : app -> app -> Prop.
Variable allowed : event -> bool.

Hypothesis R_refl : forall s, R s s.
Hypothesis R_trans : forall s1 s2 s3, R s1 s2 -> R s2 s3 -> R s1 s3.
Hypothesis R_emit : forall ev s, allowed ev = true -> R s (snd (emit ev s)).

Lemma respects_ret {A} (a : A) : respects R (ret a).
Proof. intros s. apply R_refl. Qed.

Lemma respects_lift {A} (o : outcome A) : respects R (lift o).
Proof. intros s. apply R_refl. Qed.

Lemma respects_get_session : respects R get_session.
Proof. intros s. apply R_refl. Qed.

Lemma respects_emit (ev : event) : allowed ev = true -> respects R (emit ev).
Proof. intros H s. now apply R_emit. Qed.

Lemma respects_bind {A B} (m : M A) (f : A -> M B) :
  respects R m -> (forall a, respects R (f a)) -> respects R (bind m f).
Proof.
  intros Hm Hf s. unfold bind. specialize (Hm s).
  destruct (m s) as [[a|e] s1]; cbn [snd] in *; [|exact Hm].
  eapply R_trans; [exact Hm|apply Hf].
Qed.

Lemma respects_try {A} (b : M A) (h : exn -> M A) :
  respects R b -> (forall e, respects R (h e)) -> respects R (try_except b h).
Proof.
  intros Hb Hh s. unfold try_except. specialize (Hb s).
  destruct (b s) as [[a|e] s1]; cbn [snd] in *; [exact Hb|].
  eapply R_trans; [exact Hb|apply Hh].
Qed.

Ltac step :=
  lazymatch goal with
  | |- respects _ (bind _ _) => apply respects_bind; [|intros ?]
  | |- respects _ (try_except _ _) => apply respects_try; [|intros ?]
  | |- respects _ (ret _) => apply respects_ret
  | |- respects _ (lift _) => apply respects_lift
  | |- respects _ get_session => apply respects_get_session
  | |- respects _ (emit _) => apply respects_emit; solve [auto]
  | |- respects _ (st_error _) => unfold st_error
  | |- respects _ (st_warning _) => unfold st_warning
  | |- respects _ (st_info _) => unfold st_info
  | |- respects _ (uniform _ _ _) => unfold uniform
  | |- respects _ (choice _ _) => unfold choice
  | |- respects _ (around _ _) => unfold around
  end.

Ltac steps := repeat step.

Section Sampling.

Variable E : env.
Hypothesis R_random : forall s, R s (snd (random E s)).

Lemma respects_random : respects R (random E).
Proof. exact R_random. Qed.

Lemma respects_sample_row (i : nat) : respects R (sample_row E i).
Proof.
  unfold sample_row.
  repeat first [ step | apply respects_random ].
Qed.

Lemma respects_generate_sample_data : respects R (generate_sample_data E).
Proof.
  unfold generate_sample_data. generalize (seq 0 15).
  induction l as [|i rest IH]; cbn [for_each]; [apply respects_ret|].
  apply respects_bind; [apply respects_sample_row|intros x].
  apply respects_bind; [exact IH|intros xs; apply respects_ret].
Qed.

End Sampling.

Variable jl : string -> outcome json.
Variable E : env.

Lemma respects_generate_job_profile (role lvl purpose : string) :
  allowed (Posted role lvl purpose) = true ->
  (forall l t, allowed (Shown l t) = true) ->
  respects R (generate_job_profile jl E role lvl purpose).
Proof.
  intros Hp Hs. unfold generate_job_profile, request_profile. steps.
Qed.

Hypothesis allowed_all : forall ev, allowed ev = true.

Lemma respects_init_supabase_connection : respects R (init_supabase_connection E).
Proof.
  unfold init_supabase_connection. steps. cbv zeta.
  match goal with |- context [if ?b then _ else _] => destruct b end; steps.
Qed.

Lemma respects_insert_job_vacancy (c : client) (role lvl purpose : string)
    (ids : list string) :
  respects R (insert_job_vacancy E c role lvl purpose ids).
Proof. unfold insert_job_vacancy. cbv zeta. steps. Qed.

Hypothesis R_random : forall s, R s (snd (random E s)).

Lemma respects_execute_matching_query (c : client) (vid : string) :
  respects R (execute_matching_query E c vid).
Proof.
  unfold execute_matching_query. steps.
  - match goal with a : list row |- _ => destruct a end; steps.
  - apply respects_generate_sample_data. exact R_random.
Qed.

Lemma respects_collect (f : form) (ids : list string) :
  respects R (collect jl E f ids).
Proof.
  unfold collect.
  apply respects_bind; [apply respects_init_supabase_connection|intros sup].
  apply respects_bind.
  { destruct sup; [apply respects_insert_job_vacancy|steps]. }
  intros vid.
  apply respects_bind; [now apply respects_generate_job_profile|intros jp].
  apply respects_bind; [|intros df; apply respects_ret].
  destruct sup as [c|]; [destruct vid as [v|]|].
  - apply respects_execute_matching_query.
  - apply respects_bind; [now apply respects_generate_sample_data|intros d; steps].
  - apply respects_bind; [now apply respects_generate_sample_data|intros d; steps].
Qed.

Hypothesis R_set_results : forall r s, R s (snd (set_results r s)).

Lemma respects_on_generate (f : form) : respects R (on_generate jl E f).
Proof.
  unfold on_generate, st_error.
  destruct (negb (all_filled f)); [steps|].
  apply respects_bind; [apply respects_collect|].
  intros [[vid jp] [rows|]]; steps.
  exact (R_set_results _).
Qed.

End Steps.

Lemma grows_refl (s : app) : grows s s.
Proof.
  repeat split; [|lia]. exists []. now rewrite app_nil_r.
Qed.

Lemma grows_trans (s1 s2 s3 : app) : grows s1 s2 -> grows s2 s3 -> grows s1 s3.
Proof.
  intros (Hs & [e1 Ht] & Hp) (Hs' & [e2 Ht'] & Hp').
  repeat split; [congruence| |lia].
  exists (e1 ++ e2)%list. now rewrite Ht', Ht, app_assoc.
Qed.

Lemma grows_emit (ev : event) (s : app) : any_event ev = true -> grows s (snd (emit ev s)).
Proof. intros _. repeat split; cbn; [now exists [ev]|lia]. Qed.

Lemma grows_random (E : env) (s : app) : grows s (snd (random E s)).
Proof.
  repeat split; cbn; [|lia]. exists []. now rewrite app_nil_r.
Qed.

Lemma collect_grows (jl : string -> outcome json) (E : env) (f : form)
    (ids : list string) (s : app) :
  grows s (snd (collect jl E f ids s)).
Proof.
  apply (respects_collect grows any_event grows_refl grows_trans grows_emit);
    [reflexivity|apply grows_random].
Qed.

Lemma grows_but_results_of (s s' : app) : grows s s' -> grows_but_results s s'.
Proof.
  intros (Hs & Ht & Hp). unfold grows_but_results. now rewrite Hs.
Qed.

Lemma grows_but_results_trans (s1 s2 s3 : app) :
  grows_but_results s1 s2 -> grows_but_results s2 s3 -> grows_but_results s1 s3.
Proof.
  intros (Hu & Hk & [e1 Ht] & Hp) (Hu' & Hk' & [e2 Ht'] & Hp').
  repeat split; [congruence|congruence| |lia].
  exists (e1 ++ e2)%list. now rewrite Ht', Ht, app_assoc.
Qed.

(** X9: whatever happens during a run, also when it fails, the database
    credentials of the session are kept, what was shown and called
    before stays in the trace (the run only adds to it), and the random
    generator never goes back. *)
Theorem X9_run_keeps_credentials_and_trace
    (jl : string -> outcome json) (E : env) (f : form) (s : app) :
  grows_but_results s (snd (on_generate jl E f s)).
Proof.
  apply (respects_on_generate grows_but_results any_event).
  - intros s0. apply grows_but_results_of, grows_refl.
  - apply grows_but_results_trans.
  - intros ev s0 H. apply grows_but_results_of, grows_emit, H.
  - reflexivity.
  - intros s0. apply grows_but_results_of, grows_random.
  - intros r s0. unfold grows_but_results. cbn.
    repeat split; [|lia]. exists []. now rewrite app_nil_r.
Qed.

(* ------------------------------------------------------------------ *)
(** ** The outcomes of the collaborating steps *)

Lemma quiet_refl (s : app) : quiet s s.
Proof.
  repeat split. exists []. now rewrite app_nil_r.
Qed.

Lemma quiet_trans (s1 s2 s3 : app) : quiet s1 s2 -> quiet s2 s3 -> quiet s1 s3.
Proof.
  intros (Hs & Hp & e1 & Ht & Ha) (Hs' & Hp' & e2 & Ht' & Ha').
  repeat split; [congruence|congruence|].
  exists (e1 ++ e2)%list. split; [now rewrite Ht', Ht, app_assoc|].
  rewrite forallb_app. now rewrite Ha, Ha'.
Qed.

Lemma quiet_emit (ev : event) (s : app) :
  not_database ev = true -> quiet s (snd (emit ev s)).
Proof.
  intros H. repeat split. exists [ev]. split; [reflexivity|].
  cbn [forallb]. unfold not_database in H. now rewrite H.
Qed.

Lemma generate_job_profile_quiet (jl : string -> outcome json) (E : env)
    (role lvl purpose : string) (s : app) :
  quiet s (snd (generate_job_profile jl E role lvl purpose s)).
Proof.
  apply (respects_generate_job_profile quiet not_database
           quiet_refl quiet_trans quiet_emit); reflexivity.
Qed.

Lemma generate_job_profile_returns (jl : string -> outcome json) (E : env)
    (role lvl purpose : string) (s : app) :
  exists v s', generate_job_profile jl E role lvl purpose s = (Return v, s').
Proof.
  unfold generate_job_profile, try_except.
  destruct (request_profile jl E role lvl purpose s) as [[v|e] s1].
  - now exists v, s1.
  - eexists. eexists. reflexivity.
Qed.

Lemma init_cases (E : env) (s : app) :
  exists c s1,
    init_supabase_connection E s = (Return c, s1) /\
    (forall cl, c = Some cl ->
                configured s = true /\
                create_client E (supabase_url (session s)) (supabase_key (session s))
                = Return cl) /\
    (configured s = false -> c = None /\ quiet s s1).
Proof.
  unfold init_supabase_connection, try_except, bind, lift, get_session, configured.
  destruct (import_supabase E) as [[]|e].
  - destruct (Str.truthy (supabase_url (session s)) &&
              Str.truthy (supabase_key (session s))) eqn:Hc.
    + cbn [emit]. 
      destruct (create_client E (supabase_url (session s)) (supabase_key (session s)))
        as [cl|e] eqn:Hcl.
      * eexists. eexists. split; [reflexivity|]. split; [|discriminate].
        intros cl' [= <-]. now split.
      * eexists. eexists. split; [reflexivity|]. split; discriminate.
    + eexists. eexists. split; [reflexivity|]. split; [discriminate|].
      intros _. split; [reflexivity|apply quiet_refl].
  - eexists. eexists. split; [reflexivity|]. split; [discriminate|].
    intros _. split; [reflexivity|]. now apply quiet_emit.
Qed.

Lemma insert_cases (E : env) (c : client) (role lvl purpose : string)
    (ids : list string) (s : app) :
  let data := mk_vacancy ("JV-" ++ now E) role lvl purpose ids in
  exists s1,
    (insert_execute c data = Return tt /\
     insert_job_vacancy E c role lvl purpose ids s = (Return (Some ("JV-" ++ now E)), s1))
    \/
    (exists e, insert_execute c data = Raise e /\
     insert_job_vacancy E c role lvl purpose ids s = (Return None, s1) /\
     In (Shown LError ("Error inserting job vacancy: " ++ exn_msg e)) (added s s1)).
Proof.
  intros data. unfold insert_job_vacancy, try_except, bind, lift. cbn [emit].
  fold data. destruct (insert_execute c data) as [[]|e].
  - eexists. left. split; reflexivity.
  - eexists. right. exists e. split; [reflexivity|]. split; [reflexivity|].
    unfold added, st_error. cbn [emit snd trace].
    rewrite <- app_assoc, skipn_app, skipn_all, Nat.sub_diag. cbn. tauto.
Qed.

Lemma query_cases (E : env) (c : client) (vid : string) (s : app) :
  exists df s1,
    execute_matching_query E c vid s = (Return df, s1) /\
    match rpc_execute_sql c with
    | Return [] => df = None
    | Return (x :: data) => df = Some (x :: data) /\ rng_pos s1 = rng_pos s
    | Raise e => exists rows, df = Some rows /\ map employee_id rows = sample_ids /\
                              rng_pos s1 = (195 + rng_pos s)%nat
    end.
Proof.
  unfold execute_matching_query, try_except, bind, lift. cbn [emit].
  destruct (rpc_execute_sql c) as [[|x data]|e].
  - eexists. eexists. split; reflexivity.
  - eexists. eexists. split; [reflexivity|]. now split.
  - unfold st_error, st_info. cbn [emit].
    match goal with |- context [generate_sample_data E ?s0] =>
      destruct (generate_sample_data_runs E s0) as (rows & Hrun & Hids & _) end.
    rewrite Hrun. eexists. eexists. split; [reflexivity|].
    exists rows. repeat split; assumption.
Qed.

Lemma bind_return {A B} (m : M A) (f : A -> M B) (s s1 : app) (a : A) :
  m s = (Return a, s1) -> bind m f s = f a s1.
Proof. intros H. unfold bind. now rewrite H. Qed.

Lemma still_refl (s : app) : still s s.
Proof. now split. Qed.

Lemma still_trans (s1 s2 s3 : app) : still s1 s2 -> still s2 s3 -> still s1 s3.
Proof. intros [H1 H2] [H3 H4]. split; congruence. Qed.

Lemma still_emit (ev : event) (s : app) : any_event ev = true -> still s (snd (emit ev s)).
Proof. intros _. now split. Qed.

Lemma generate_job_profile_still (jl : string -> outcome json) (E : env)
    (role lvl purpose : string) (s : app) :
  still s (snd (generate_job_profile jl E role lvl purpose s)).
Proof.
  apply (respects_generate_job_profile still any_event
           still_refl still_trans still_emit); reflexivity.
Qed.

Lemma init_still (E : env) (s : app) : still s (snd (init_supabase_connection E s)).
Proof.
  apply (respects_init_supabase_connection still any_event
           still_refl still_trans still_emit). reflexivity.
Qed.

Lemma insert_still (E : env) (c : client) (role lvl purpose : string)
    (ids : list string) (s : app) :
  still s (snd (insert_job_vacancy E c role lvl purpose ids s)).
Proof.
  apply (respects_insert_job_vacancy still any_event
           still_refl still_trans still_emit). reflexivity.
Qed.

Lemma warn_then_return {A} (text : string) (v : A) (s : app) :
  (st_warning text ;;; ret v) s = (Return v, logged [Shown LWarning text] s).
Proof. reflexivity. Qed.

Lemma sample_ids_rows_nonempty (rows : list row) :
  map employee_id rows = sample_ids -> rows <> [].
Proof. intros H ->. discriminate H. Qed.

(** What [collect] hands over: it never raises; a frame, when there is
    one, is not empty; there is none only when the query answered with no
    rows. *)
Lemma collect_cases (jl : string -> outcome json) (E : env) (f : form)
    (ids : list string) (s : app) :
  exists vid jp df s1,
    collect jl E f ids s = (Return (vid, jp, df), s1) /\
    (forall rows, df = Some rows -> rows <> []) /\
    (df = None ->
     exists c,
       create_client E (supabase_url (session s)) (supabase_key (session s)) = Return c /\
       rpc_execute_sql c = Return []).
Proof.
  destruct (init_cases E s) as (c & s1 & Hinit & Hsome & _).
  unfold collect. rewrite (bind_return _ _ _ _ _ Hinit).
  destruct c as [cl|].
  - destruct (Hsome cl eq_refl) as [_ Hcl].
    destruct (insert_cases E cl (role_name f) (job_level f) (role_purpose f) ids s1)
      as [s2 [[_ Hins]|(e & _ & Hins & _)]];
      rewrite (bind_return _ _ _ _ _ Hins);
      destruct (generate_job_profile_returns jl E (role_name f) (job_level f)
                  (role_purpose f) s2) as (jp & s3 & Hjp);
      rewrite (bind_return _ _ _ _ _ Hjp).
    + destruct (query_cases E cl ("JV-" ++ now E) s3) as (df & s4 & Hq & Hpost).
      rewrite (bind_return _ _ _ _ _ Hq). unfold ret.
      do 4 eexists. split; [reflexivity|].
      destruct (rpc_execute_sql cl) as [[|x data]|e] eqn:Hrpc.
      * subst df. split; [discriminate|]. intros _. exists cl. now split.
      * destruct Hpost as [-> _]. split; [|discriminate].
        intros rows [= <-]. discriminate.
      * destruct Hpost as (rows & -> & Hids & _). split; [|discriminate].
        intros rows' [= <-]. now apply sample_ids_rows_nonempty.
    + destruct (generate_sample_data_runs E s3) as (rows & Hrun & Hids & _).
      rewrite (bind_return _ _ _ _ _ (bind_return _ _ _ _ _ Hrun)). unfold ret.
      do 4 eexists. split; [reflexivity|]. split; [|discriminate].
      intros rows' [= <-]. now apply sample_ids_rows_nonempty.
  - rewrite (bind_return _ _ _ _ _ (warn_then_return _ _ s1)). fold demo_warning.
    destruct (generate_job_profile_returns jl E (role_name f) (job_level f)
                (role_purpose f) (logged [demo_warning] s1)) as (jp & s3 & Hjp).
    rewrite (bind_return _ _ _ _ _ Hjp).
    destruct (generate_sample_data_runs E s3) as (rows & Hrun & Hids & _).
    rewrite (bind_return _ _ _ _ _ (bind_return _ _ _ _ _ Hrun)). unfold ret.
    do 4 eexists. split; [reflexivity|]. split; [|discriminate].
    intros rows' [= <-]. now apply sample_ids_rows_nonempty.
Qed.

(** X10: with the four fields filled a run has two possible outcomes.
    Either it returns and has stored results whose ranking is not empty
    and whose benchmark ids are those of line 305; or it raises the
    TypeError of subscripting None, and then the session is exactly as
    before (no partial results).  The failure happens only when a
    database client was created and its query answered with no rows. *)
Theorem X10_run_outcomes
    (jl : string -> outcome json) (E : env) (f : form) (s : app) :
  all_filled f = true ->
  (exists r,
      fst (on_generate jl E f s) = Return tt /\
      stored (on_generate jl E f s) = Some r /\
      talent_df r <> [] /\
      benchmark_ids r = benchmark_list (benchmark_text f))
  \/
  (fst (on_generate jl E f s) = Raise none_type_error /\
   session (snd (on_generate jl E f s)) = session s /\
   exists c,
     create_client E (supabase_url (session s)) (supabase_key (session s)) = Return c /\
     rpc_execute_sql c = Return []).
Proof.
  intros Hf. rewrite (on_generate_filled jl E f s Hf).
  pose proof (collect_grows jl E f (benchmark_list (benchmark_text f)) s) as Hg.
  destruct (collect_cases jl E f (benchmark_list (benchmark_text f)) s)
    as (vid & jp & df & s1 & Hc & Hrows & Hnone).
  rewrite Hc in *. cbn [snd] in Hg.
  destruct df as [rows|].
  - left. rewrite (analyse_returns vid jp _ rows (Hrows rows eq_refl)).
    eexists. split; [reflexivity|]. split; [reflexivity|].
    cbn [talent_df benchmark_ids]. split; [|reflexivity].
    apply sort_values_nonempty. unfold flag. intros Hm.
    apply map_eq_nil in Hm. now apply (Hrows rows eq_refl).
  - right. split; [reflexivity|]. split; [apply Hg|]. now apply Hnone.
Qed.

Lemma X10_run_outcomes_witness :
  exists r,
    fst (on_generate Inputs.rejecting (Inputs.offline Inputs.draws_a Inputs.noon)
           Inputs.analyst Inputs.fresh) = Return tt /\
    stored (on_generate Inputs.rejecting (Inputs.offline Inputs.draws_a Inputs.noon)
              Inputs.analyst Inputs.fresh) = Some r /\
    talent_df r <> [].
Proof.
  destruct (X10_run_outcomes Inputs.rejecting
              (Inputs.offline Inputs.draws_a Inputs.noon) Inputs.analyst Inputs.fresh
              eq_refl) as [(r & H1 & H2 & H3 & _)|(H & _)].
  - exists r. repeat split; assumption.
  - vm_compute in H. discriminate H.
Defined.

(* ------------------------------------------------------------------ *)
(** ** The paths of a run *)

Lemma logged_logged (e1 e2 : list event) (s : app) :
  logged e2 (logged e1 s) = logged (e1 ++ e2) s.
Proof. unfold logged. cbn [session rng_pos trace]. now rewrite app_assoc. Qed.

Lemma emit_logged (ev : event) (s : app) : emit ev s = (Return tt, logged [ev] s).
Proof. reflexivity. Qed.

Lemma quiet_logged (s s' : app) :
  quiet s s' ->
  exists evs, s' = logged evs s /\ forallb not_database evs = true.
Proof.
  intros (Hs & Hp & evs & Ht & Ha). exists evs. split; [|exact Ha].
  destruct s' as [ss p t]. cbn in *. unfold logged. now subst.
Qed.

Lemma added_after_run (evs : list event) (n : nat) (r : results) (s : app) :
  added s (after_run evs n r s) = evs.
Proof.
  unfold added, after_run, set_results, drawn, logged. cbn [snd trace].
  now rewrite skipn_app, skipn_all, Nat.sub_diag.
Qed.

Lemma after_run_facts (evs : list event) (n : nat) (r : results) (s : app) :
  session_results (session (after_run evs n r s)) = Some r /\
  rng_pos (after_run evs n r s) = (n + rng_pos s)%nat.
Proof. now split. Qed.

(** Once [collect] has handed over a frame, the run stores the results
    built from it. *)
Lemma on_generate_with_frame (jl : string -> outcome json) (E : env) (f : form)
    (s : app) (vid : option string) (jp : json) (rows : list row)
    (evs : list event) (n : nat) :
  all_filled f = true ->
  collect jl E f (benchmark_list (benchmark_text f)) s =
    (Return (vid, jp, Some rows), drawn n (logged evs s)) ->
  rows <> [] ->
  exists r,
    on_generate jl E f s = (Return tt, after_run evs n r s) /\
    vacancy_id r = vid /\ job_profile r = jp /\
    Permutation (map base (talent_df r)) rows.
Proof.
  intros Hf Hc Hrows. rewrite (on_generate_filled jl E f s Hf), Hc.
  rewrite (analyse_returns vid jp _ rows Hrows).
  eexists. split; [reflexivity|]. cbn [vacancy_id job_profile talent_df].
  repeat split.
  eapply perm_trans; [apply Permutation_map, Permutation_sym, sort_values_perm|].
  unfold flag. rewrite map_map. cbn [base]. rewrite map_id. apply Permutation_refl.
Qed.

Lemma init_connected (E : env) (s : app) (c : client) :
  import_supabase E = Return tt ->
  configured s = true ->
  create_client E (supabase_url (session s)) (supabase_key (session s)) = Return c ->
  init_supabase_connection E s = (Return (Some c), logged [connected s] s).
Proof.
  intros Hi Hc Hcl.
  unfold init_supabase_connection, try_except, bind, lift, get_session.
  unfold configured in Hc. rewrite Hi, Hc. cbn [emit]. now rewrite Hcl.
Qed.

Lemma insert_succeeds (E : env) (c : client) (f : form) (s : app) :
  insert_execute c (vacancy_of E f) = Return tt ->
  insert_job_vacancy E c (role_name f) (job_level f) (role_purpose f)
    (benchmark_list (benchmark_text f)) s =
  (Return (Some ("JV-" ++ now E)), logged [Inserted (vacancy_of E f)] s).
Proof.
  intros H. unfold insert_job_vacancy, try_except, bind, lift. cbn [emit].
  fold (vacancy_of E f). now rewrite H.
Qed.

Lemma insert_fails (E : env) (c : client) (f : form) (s : app) (e : exn) :
  insert_execute c (vacancy_of E f) = Raise e ->
  insert_job_vacancy E c (role_name f) (job_level f) (role_purpose f)
    (benchmark_list (benchmark_text f)) s =
  (Return None, logged [Inserted (vacancy_of E f); insert_error e] s).
Proof.
  intros H. unfold insert_job_vacancy, try_except, bind, lift. cbn [emit].
  fold (vacancy_of E f). rewrite H. unfold st_error. cbn [emit ret].
  unfold logged. cbn [session rng_pos trace]. now rewrite <- app_assoc.
Qed.

Lemma profile_logged (jl : string -> outcome json) (E : env)
    (role lvl purpose : string) (s : app) :
  exists jp evs,
    generate_job_profile jl E role lvl purpose s = (Return jp, logged evs s) /\
    forallb not_database evs = true.
Proof.
  destruct (generate_job_profile_returns jl E role lvl purpose s) as (jp & s1 & H).
  pose proof (generate_job_profile_quiet jl E role lvl purpose s) as Hq.
  rewrite H in Hq. cbn [snd] in Hq.
  destruct (quiet_logged _ _ Hq) as (evs & -> & Ha). now exists jp, evs.
Qed.

Lemma sample_logged (E : env) (evs : list event) (s : app) :
  exists rows,
    generate_sample_data E (logged evs s) = (Return rows, drawn 195 (logged evs s)) /\
    map employee_id rows = sample_ids.
Proof.
  destruct (generate_sample_data_runs E (logged evs s)) as (rows & H & Hids & _).
  exists rows. split; assumption.
Qed.

Lemma drawn_0 (s : app) : drawn 0 s = s.
Proof. now destruct s. Qed.

Lemma not_database_not_in (ev : event) (evs : list event) :
  database_event ev = true -> forallb not_database evs = true -> ~ In ev evs.
Proof.
  intros Hd Ha Hin. rewrite forallb_forall in Ha. specialize (Ha ev Hin).
  unfold not_database in Ha. rewrite Hd in Ha. discriminate Ha.
Qed.

(** X11: without both database credentials in the session a run with
    the four fields filled always returns: it stores the fifteen sample
    candidates under the vacancy id "JV-" followed by the clock reading,
    shows the demo-mode warning and makes no call to the database. *)
Theorem X11_demo_mode
    (jl : string -> outcome json) (E : env) (f : form) (s : app) :
  all_filled f = true ->
  configured s = false ->
  exists r,
    fst (on_generate jl E f s) = Return tt /\
    stored (on_generate jl E f s) = Some r /\
    vacancy_id r = Some ("JV-" ++ now E) /\
    Permutation (map ident (talent_df r)) sample_ids /\
    In demo_warning (added s (snd (on_generate jl E f s))) /\
    forallb not_database (added s (snd (on_generate jl E f s))) = true.
Proof.
  intros Hf Hc.
  destruct (init_cases E s) as (c & s1 & Hinit & _ & Hnone).
  destruct (Hnone Hc) as [-> Hq].
  destruct (quiet_logged _ _ Hq) as (e1 & -> & Ha1).
  destruct (profile_logged jl E (role_name f) (job_level f) (role_purpose f)
              (logged [demo_warning] (logged e1 s))) as (jp & e3 & Hjp & Ha3).
  rewrite !logged_logged in Hjp.
  destruct (sample_logged E ((e1 ++ [demo_warning]) ++ e3) s) as (rows & Hrun & Hids).
  assert (Hcollect :
            collect jl E f (benchmark_list (benchmark_text f)) s =
            (Return (Some ("JV-" ++ now E), jp, Some rows),
             drawn 195 (logged ((e1 ++ [demo_warning]) ++ e3) s))).
  { unfold collect. rewrite (bind_return _ _ _ _ _ Hinit).
    rewrite (bind_return _ _ _ _ _ (warn_then_return _ _ (logged e1 s))).
    fold demo_warning.
    rewrite logged_logged.
    rewrite (bind_return _ _ _ _ _ Hjp).
    now rewrite (bind_return _ _ _ _ _ (bind_return _ _ _ _ _ Hrun)). }
  destruct (on_generate_with_frame jl E f s _ _ _ _ _ Hf Hcollect
              (sample_ids_rows_nonempty rows Hids)) as (r & Hrun' & Hvid & _ & Hperm).
  exists r. rewrite Hrun'. cbn [fst snd]. unfold stored. cbn [snd].
  rewrite added_after_run.
  split; [reflexivity|]. split; [reflexivity|]. split; [exact Hvid|].
  split.
  { rewrite <- Hids. unfold ident. rewrite <- (map_map base employee_id).
    now apply Permutation_map. }
  split.
  - apply in_or_app. left. apply in_or_app. right. now left.
  - rewrite !forallb_app, Ha1, Ha3. reflexivity.
Qed.

Lemma X11_demo_mode_witness :
  exists r,
    stored (on_generate Inputs.rejecting (Inputs.offline Inputs.draws_a Inputs.noon)
              Inputs.analyst Inputs.fresh) = Some r /\
    vacancy_id r = Some ("JV-" ++ Inputs.noon) /\
    Permutation (map ident (talent_df r)) sample_ids.
Proof.
  destruct (X11_demo_mode Inputs.rejecting (Inputs.offline Inputs.draws_a Inputs.noon)
              Inputs.analyst Inputs.fresh eq_refl eq_refl)
    as (r & _ & Hs & Hv & Hp & _).
  exists r. repeat split; assumption.
Defined.

Lemma query_answers (E : env) (c : client) (vid : string) (s : app)
    (x : row) (data : list row) :
  rpc_execute_sql c = Return (x :: data) ->
  execute_matching_query E c vid s = (Return (Some (x :: data)), logged [Queried] s).
Proof.
  intros H. unfold execute_matching_query, try_except, bind, lift. cbn [emit].
  now rewrite H.
Qed.

Lemma try_raise {A} (body : M A) (h : exn -> M A) (s s1 : app) (e : exn) :
  body s = (Raise e, s1) -> try_except body h s = h e s1.
Proof. intros H. unfold try_except. now rewrite H. Qed.

Lemma query_raises (E : env) (c : client) (vid : string) (s : app) (e : exn) :
  rpc_execute_sql c = Raise e ->
  exists rows,
    execute_matching_query E c vid s =
    (Return (Some rows), drawn 195 (logged [Queried; query_error e; sample_info] s)) /\
    map employee_id rows = sample_ids.
Proof.
  intros H.
  destruct (sample_logged E [Queried; query_error e; sample_info] s) as (rows & Hr & Hids).
  exists rows. split; [|exact Hids].
  unfold execute_matching_query.
  rewrite (try_raise _ _ s (logged [Queried] s) e).
  - rewrite (bind_return _ _ _ _ _ (emit_logged (query_error e) (logged [Queried] s))).
    rewrite (bind_return _ _ _ _ _ (emit_logged sample_info _)).
    rewrite !logged_logged. cbn [List.app].
    rewrite (bind_return _ _ _ _ _ Hr). reflexivity.
  - unfold bind, lift. rewrite emit_logged, H. reflexivity.
Qed.

(** X12: when the insert of the vacancy fails, the run does not fail: it
    shows the error, stores no vacancy id (None), never sends the
    matching query and ranks the fifteen sample candidates instead. *)
Theorem X12_insert_failure_falls_back
    (jl : string -> outcome json) (E : env) (f : form) (s : app)
    (c : client) (e : exn) :
  all_filled f = true ->
  import_supabase E = Return tt ->
  configured s = true ->
  create_client E (supabase_url (session s)) (supabase_key (session s)) = Return c ->
  insert_execute c (vacancy_of E f) = Raise e ->
  exists r,
    fst (on_generate jl E f s) = Return tt /\
    stored (on_generate jl E f s) = Some r /\
    vacancy_id r = None /\
    Permutation (map ident (talent_df r)) sample_ids /\
    In (insert_error e) (added s (snd (on_generate jl E f s))) /\
    ~ In Queried (added s (snd (on_generate jl E f s))).
Proof.
  intros Hf Hi Hc Hcl Hins.
  pose proof (init_connected E s c Hi Hc Hcl) as Hinit.
  pose proof (insert_fails E c f (logged [connected s] s) e Hins) as Hins'.
  rewrite logged_logged in Hins'.
  destruct (profile_logged jl E (role_name f) (job_level f) (role_purpose f)
              (logged ([connected s] ++ [Inserted (vacancy_of E f); insert_error e]) s))
    as (jp & e3 & Hjp & Ha3).
  rewrite logged_logged in Hjp.
  match type of Hjp with _ = (_, logged ?evs s) =>
    destruct (sample_logged E evs s) as (rows & Hrun & Hids) end.
  match type of Hrun with _ = (_, ?s') =>
    assert (Hcollect :
              collect jl E f (benchmark_list (benchmark_text f)) s =
              (Return (None, jp, Some rows), s')) end.
  { unfold collect. rewrite (bind_return _ _ _ _ _ Hinit).
    rewrite (bind_return _ _ _ _ _ Hins').
    rewrite (bind_return _ _ _ _ _ Hjp).
    now rewrite (bind_return _ _ _ _ _ (bind_return _ _ _ _ _ Hrun)). }
  destruct (on_generate_with_frame jl E f s _ _ _ _ _ Hf Hcollect
              (sample_ids_rows_nonempty rows Hids)) as (r & Hrun' & Hvid & _ & Hperm).
  exists r. rewrite Hrun'. cbn [fst snd]. unfold stored. cbn [snd].
  rewrite added_after_run.
  split; [reflexivity|]. split; [reflexivity|]. split; [exact Hvid|].
  split.
  { rewrite <- Hids. unfold ident. rewrite <- (map_map base employee_id).
    now apply Permutation_map. }
  split.
  - apply in_or_app. left. cbn. tauto.
  - intros Hin. apply in_app_or in Hin. destruct Hin as [Hin|Hin].
    + cbn in Hin. unfold connected, insert_error in Hin.
      destruct Hin as [H|[H|[H|[]]]]; discriminate H.
    + now apply (not_database_not_in Queried e3).
Qed.

Lemma X12_insert_failure_falls_back_witness :
  exists r,
    stored (on_generate Inputs.rejecting (Online.world Online.read_only)
              Inputs.analyst Online.signed_in) = Some r /\
    vacancy_id r = None /\
    Permutation (map ident (talent_df r)) sample_ids.
Proof.
  destruct (X12_insert_failure_falls_back Inputs.rejecting
              (Online.world Online.read_only) Inputs.analyst Online.signed_in
              Online.read_only
              (mk_exn "APIError" "permission denied for table talent_benchmarks")
              eq_refl eq_refl eq_refl eq_refl eq_refl)
    as (r & _ & Hs & Hv & Hp & _).
  exists r. repeat split; assumption.
Defined.

(** X13: with a working database (client created, vacancy inserted, the
    query answering with at least one row) the run stores the vacancy id
    "JV-" followed by the clock reading and ranks exactly the rows the
    query returned; the vacancy row it inserted carries the role inputs
    and the benchmark list, and no random value is drawn. *)
Theorem X13_database_run
    (jl : string -> outcome json) (E : env) (f : form) (s : app)
    (c : client) (x : row) (data : list row) :
  all_filled f = true ->
  import_supabase E = Return tt ->
  configured s = true ->
  create_client E (supabase_url (session s)) (supabase_key (session s)) = Return c ->
  insert_execute c (vacancy_of E f) = Return tt ->
  rpc_execute_sql c = Return (x :: data) ->
  exists r,
    fst (on_generate jl E f s) = Return tt /\
    stored (on_generate jl E f s) = Some r /\
    vacancy_id r = Some ("JV-" ++ now E) /\
    Permutation (map base (talent_df r)) (x :: data) /\
    rng_pos (snd (on_generate jl E f s)) = rng_pos s /\
    In (Inserted (vacancy_of E f)) (added s (snd (on_generate jl E f s))) /\
    In Queried (added s (snd (on_generate jl E f s))).
Proof.
  intros Hf Hi Hc Hcl Hins Hrpc.
  pose proof (init_connected E s c Hi Hc Hcl) as Hinit.
  pose proof (insert_succeeds E c f (logged [connected s] s) Hins) as Hins'.
  rewrite logged_logged in Hins'.
  destruct (profile_logged jl E (role_name f) (job_level f) (role_purpose f)
              (logged ([connected s] ++ [Inserted (vacancy_of E f)]) s))
    as (jp & e3 & Hjp & Ha3).
  rewrite logged_logged in Hjp.
  match type of Hjp with _ = (_, ?s3) =>
    pose proof (query_answers E c ("JV-" ++ now E) s3 x data Hrpc) as Hq end.
  rewrite logged_logged in Hq.
  match type of Hq with _ = (_, logged ?evs s) =>
    assert (Hcollect :
              collect jl E f (benchmark_list (benchmark_text f)) s =
              (Return (Some ("JV-" ++ now E), jp, Some (x :: data)),
               drawn 0 (logged evs s))) end.
  { unfold collect. rewrite (bind_return _ _ _ _ _ Hinit).
    rewrite (bind_return _ _ _ _ _ Hins').
    rewrite (bind_return _ _ _ _ _ Hjp).
    rewrite (bind_return _ _ _ _ _ Hq). now rewrite drawn_0. }
  destruct (on_generate_with_frame jl E f s _ _ _ _ _ Hf Hcollect)
    as (r & Hrun' & Hvid & _ & Hperm); [discriminate|].
  exists r. rewrite Hrun'. cbn [fst snd]. unfold stored. cbn [snd].
  rewrite added_after_run.
  split; [reflexivity|]. split; [reflexivity|]. split; [exact Hvid|].
  split; [exact Hperm|]. split; [reflexivity|]. split.
  - apply in_or_app. left. apply in_or_app. left. cbn. tauto.
  - apply in_or_app. right. now left.
Qed.

Lemma X13_database_run_witness :
  exists r,
    stored (on_generate Inputs.rejecting (Online.world Online.answering)
              Inputs.analyst Online.signed_in) = Some r /\
    vacancy_id r = Some ("JV-" ++ Inputs.noon) /\
    Permutation (map base (talent_df r)) Inputs.strangers.
Proof.
  destruct (X13_database_run Inputs.rejecting (Online.world Online.answering)
              Inputs.analyst Online.signed_in Online.answering
              (Inputs.person "EMP1000" (905 # 10)) [Inputs.person "EMP1001" (732 # 10)]
              eq_refl eq_refl eq_refl eq_refl eq_refl eq_refl)
    as (r & _ & Hs & Hv & Hp & _).
  exists r. repeat split; assumption.
Defined.

(** X14: when the matching query raises, the run does not fail: it shows
    the error and the notice about sample data, keeps the vacancy id of
    the inserted vacancy, and ranks the fifteen sample candidates. *)
Theorem X14_query_failure_falls_back
    (jl : string -> outcome json) (E : env) (f : form) (s : app)
    (c : client) (e : exn) :
  all_filled f = true ->
  import_supabase E = Return tt ->
  configured s = true ->
  create_client E (supabase_url (session s)) (supabase_key (session s)) = Return c ->
  insert_execute c (vacancy_of E f) = Return tt ->
  rpc_execute_sql c = Raise e ->
  exists r,
    fst (on_generate jl E f s) = Return tt /\
    stored (on_generate jl E f s) = Some r /\
    vacancy_id r = Some ("JV-" ++ now E) /\
    Permutation (map ident (talent_df r)) sample_ids /\
    In (query_error e) (added s (snd (on_generate jl E f s))) /\
    In sample_info (added s (snd (on_generate jl E f s))).
Proof.
  intros Hf Hi Hc Hcl Hins Hrpc.
  pose proof (init_connected E s c Hi Hc Hcl) as Hinit.
  pose proof (insert_succeeds E c f (logged [connected s] s) Hins) as Hins'.
  rewrite logged_logged in Hins'.
  destruct (profile_logged jl E (role_name f) (job_level f) (role_purpose f)
              (logged ([connected s] ++ [Inserted (vacancy_of E f)]) s))
    as (jp & e3 & Hjp & Ha3).
  rewrite logged_logged in Hjp.
  match type of Hjp with _ = (_, ?s3) =>
    destruct (query_raises E c ("JV-" ++ now E) s3 e Hrpc) as (rows & Hq & Hids) end.
  rewrite logged_logged in Hq.
  match type of Hq with _ = (_, ?s') =>
    assert (Hcollect :
              collect jl E f (benchmark_list (benchmark_text f)) s =
              (Return (Some ("JV-" ++ now E), jp, Some rows), s')) end.
  { unfold collect. rewrite (bind_return _ _ _ _ _ Hinit).
    rewrite (bind_return _ _ _ _ _ Hins').
    rewrite (bind_return _ _ _ _ _ Hjp).
    now rewrite (bind_return _ _ _ _ _ Hq). }
  destruct (on_generate_with_frame jl E f s _ _ _ _ _ Hf Hcollect
              (sample_ids_rows_nonempty rows Hids)) as (r & Hrun' & Hvid & _ & Hperm).
  exists r. rewrite Hrun'. cbn [fst snd]. unfold stored. cbn [snd].
  rewrite added_after_run.
  split; [reflexivity|]. split; [reflexivity|]. split; [exact Hvid|].
  split.
  { rewrite <- Hids. unfold ident. rewrite <- (map_map base employee_id).
    now apply Permutation_map. }
  split.
  - apply in_or_app. right. cbn. tauto.
  - apply in_or_app. right. cbn. tauto.
Qed.

Lemma X14_query_failure_falls_back_witness :
  exists r,
    stored (on_generate Inputs.rejecting (Online.world Online.without_function)
              Inputs.analyst Online.signed_in) = Some r /\
    vacancy_id r = Some ("JV-" ++ Inputs.noon) /\
    Permutation (map ident (talent_df r)) sample_ids.
Proof.
  destruct (X14_query_failure_falls_back Inputs.rejecting
              (Online.world Online.without_function) Inputs.analyst Online.signed_in
              Online.without_function
              (mk_exn "APIError" "Could not find the function public.execute_sql")
              eq_refl eq_refl eq_refl eq_refl eq_refl eq_refl)
    as (r & _ & Hs & Hv & Hp & _).
  exists r. repeat split; assumption.
Defined.

(* ------------------------------------------------------------------ *)
(** ** Parsing and printing the benchmark ids *)

Lemma split_without_separator (sep : ascii) (s : string) :
  has_char sep s = false -> Str.split sep s = [s].
Proof.
  induction s as [|c s IH]; cbn [has_char Str.split]; [reflexivity|].
  intros H. apply orb_false_elim in H. destruct H as [Hc Hs].
  rewrite Hc, (IH Hs). reflexivity.
Qed.

Lemma split_at_separator (sep : ascii) (a b : string) :
  has_char sep a = false ->
  Str.split sep (a ++ String sep b) = a :: Str.split sep b.
Proof.
  induction a as [|c a IH]; cbn [has_char String.append Str.split]; intros H.
  - now rewrite Ascii.eqb_refl.
  - apply orb_false_elim in H. destruct H as [Hc Ha].
    rewrite Hc, (IH Ha). reflexivity.
Qed.

Lemma split_elements_free (sep : ascii) (s : string) :
  Forall (fun p => has_char sep p = false) (Str.split sep s).
Proof.
  induction s as [|c s IH]; cbn [Str.split].
  - repeat constructor.
  - destruct (Ascii.eqb c sep) eqn:Hc.
    + constructor; [reflexivity|exact IH].
    + destruct (Str.split sep s) as [|w ws]; [repeat constructor; cbn; now rewrite Hc|].
      inversion IH as [|? ? Hw Hws]; subst.
      constructor; [|exact Hws]. cbn [has_char]. now rewrite Hc, Hw.
Qed.

Lemma split_nonempty (sep : ascii) (s : string) : Str.split sep s <> [].
Proof.
  destruct s as [|c s]; cbn [Str.split]; [discriminate|].
  destruct (Ascii.eqb c sep); [discriminate|].
  destruct (Str.split sep s); discriminate.
Qed.

(** A blank after the comma does not change the ids. *)
Lemma split_after_blank (s : string) :
  map Str.strip (Str.split "," (String " " s)) = map Str.strip (Str.split "," s).
Proof.
  cbn [Str.split]. change (Ascii.eqb " " ",") with false. cbv iota.
  pose proof (split_nonempty "," s) as Hne.
  destruct (Str.split "," s) as [|w ws]; [congruence|]. reflexivity.
Qed.

Lemma split_join_clean (ids : list string) :
  ids <> [] ->
  Forall (fun p => has_char "," p = false) ids ->
  map Str.strip (Str.split "," (join ", " ids)) = map Str.strip ids.
Proof.
  intros Hne Hall. induction Hall as [|p l Hp Hl IH]; [congruence|].
  destruct l as [|q l].
  - cbn [join]. now rewrite (split_without_separator _ _ Hp).
  - change (join ", " (p :: q :: l)) with (p ++ String "," (String " " (join ", " (q :: l)))).
    rewrite (split_at_separator _ _ _ Hp). cbn [map]. f_equal.
    rewrite split_after_blank. apply IH. discriminate.
Qed.

Lemma strip_clean_ids (ids : list string) :
  Forall clean_id ids -> map Str.strip ids = ids.
Proof.
  induction 1 as [|p l [_ Hp] _ IH]; [reflexivity|].
  cbn [map]. now rewrite Hp, IH.
Qed.

Lemma clean_ids_free (ids : list string) :
  Forall clean_id ids -> Forall (fun p => has_char "," p = false) ids.
Proof.
  intros H. eapply Forall_impl; [|exact H]. intros p [Hp _]. exact Hp.
Qed.

(** X15: printing a list of ids with ", " between them and parsing the
    text again gives back the first three ids, for any non-empty list of
    ids without commas and without white space at their ends. *)
Theorem X15_ids_round_trip (ids : list string) :
  ids <> [] ->
  Forall clean_id ids ->
  benchmark_list (join ", " ids) = firstn 3 ids.
Proof.
  intros Hne Hall. unfold benchmark_list, supplied_ids.
  rewrite (split_join_clean ids Hne (clean_ids_free ids Hall)).
  now rewrite (strip_clean_ids ids Hall).
Qed.

Lemma X15_ids_round_trip_witness :
  benchmark_list (join ", " ["312"; "335"; "175"; "999"]) = ["312"; "335"; "175"].
Proof.
  apply (X15_ids_round_trip ["312"; "335"; "175"; "999"]).
  - discriminate.
  - repeat constructor.
Defined.

Lemma rstrip_idempotent (s : string) : Str.rstrip (Str.rstrip s) = Str.rstrip s.
Proof.
  induction s as [|c s IH]; [reflexivity|].
  cbn [Str.rstrip]. destruct (Str.rstrip s) as [|d r] eqn:Hr.
  - destruct (Str.isspace c) eqn:Hc; [reflexivity|].
    cbn [Str.rstrip]. now rewrite Hc.
  - cbn [Str.rstrip]. cbn [Str.rstrip] in IH.
    destruct (Str.rstrip r) as [|d' r'] eqn:Hr'.
    + destruct (Str.isspace d); [discriminate IH|]. now rewrite IH.
    + now rewrite IH.
Qed.

Lemma lstrip_of_rstrip (c : ascii) (s : string) :
  Str.isspace c = false ->
  Str.lstrip (Str.rstrip (String c s)) = Str.rstrip (String c s).
Proof.
  intros Hc. cbn [Str.rstrip].
  destruct (Str.rstrip s); [rewrite Hc|]; cbn [Str.lstrip]; now rewrite Hc.
Qed.

Lemma lstrip_head (s : string) :
  Str.lstrip s = EmptyString \/
  exists c t, Str.lstrip s = String c t /\ Str.isspace c = false.
Proof.
  induction s as [|c s IH]; cbn [Str.lstrip]; [now left|].
  destruct (Str.isspace c) eqn:Hc; [exact IH|].
  right. now exists c, s.
Qed.

Lemma strip_idempotent (s : string) : Str.strip (Str.strip s) = Str.strip s.
Proof.
  unfold Str.strip. destruct (lstrip_head s) as [H|(c & t & H & Hc)]; rewrite H.
  - reflexivity.
  - rewrite (lstrip_of_rstrip c t Hc). apply rstrip_idempotent.
Qed.

Lemma lstrip_free (c : ascii) (s : string) :
  has_char c s = false -> has_char c (Str.lstrip s) = false.
Proof.
  induction s as [|d s IH]; cbn [Str.lstrip has_char]; [easy|].
  intros H. destruct (Str.isspace d); [|exact H].
  apply orb_false_elim in H. now apply IH.
Qed.

Lemma rstrip_free (c : ascii) (s : string) :
  has_char c s = false -> has_char c (Str.rstrip s) = false.
Proof.
  induction s as [|d s IH]; cbn [Str.rstrip has_char]; [easy|].
  intros H. apply orb_false_elim in H. destruct H as [Hd Hs].
  specialize (IH Hs).
  destruct (Str.rstrip s) as [|d' r].
  - destruct (Str.isspace d); [reflexivity|]. cbn [has_char]. now rewrite Hd.
  - cbn [has_char] in *. now rewrite Hd, IH.
Qed.

Lemma supplied_ids_clean (text : string) : Forall clean_id (supplied_ids text).
Proof.
  unfold supplied_ids. apply Forall_map.
  eapply Forall_impl; [|apply (split_elements_free "," text)].
  intros p Hp. split.
  - unfold Str.strip. now apply rstrip_free, lstrip_free.
  - apply strip_idempotent.
Qed.

Lemma benchmark_list_nonempty (text : string) : benchmark_list text <> [].
Proof.
  unfold benchmark_list, supplied_ids.
  pose proof (split_nonempty "," text) as H.
  destruct (Str.split "," text); [congruence|discriminate].
Qed.

(** X16: every id of the benchmark list is free of commas and of white
    space at its ends, and the list is never empty; so the ids the
    summary prints (joined by ", ") parse back to the stored list: typing
    the printed ids into the form again selects the same benchmarks. *)
Theorem X16_printed_ids_parse_back (vid : option string) (jp : json)
    (text : string) (df : list row) (r : results) :
  analyse vid jp (benchmark_list text) df = Return r ->
  Forall clean_id (benchmark_ids r) /\
  benchmark_ids r <> [] /\
  benchmark_list (shown_benchmark_ids r) = benchmark_ids r.
Proof.
  intros H. destruct (analyse_flags _ _ _ _ _ H) as [Hids _].
  unfold shown_benchmark_ids. rewrite Hids.
  assert (Hclean : Forall clean_id (benchmark_list text)).
  { unfold benchmark_list. apply Forall_forall. intros p Hp.
    pose proof (supplied_ids_clean text) as Hall. rewrite Forall_forall in Hall.
    apply Hall. rewrite <- (firstn_skipn 3 (supplied_ids text)).
    apply in_or_app. now left. }
  split; [exact Hclean|]. split; [apply benchmark_list_nonempty|].
  unfold benchmark_list at 1. unfold supplied_ids at 1.
  rewrite (split_join_clean _ (benchmark_list_nonempty text)
             (clean_ids_free _ Hclean)).
  rewrite (strip_clean_ids _ Hclean).
  unfold benchmark_list. rewrite firstn_firstn. reflexivity.
Qed.

Lemma X16_printed_ids_parse_back_witness :
  exists r,
    analyse None JNull (benchmark_list " 312,400 , 401,999") Inputs.scenario = Return r /\
    benchmark_list (shown_benchmark_ids r) = benchmark_ids r.
Proof.
  destruct (analyse None JNull (benchmark_list " 312,400 , 401,999") Inputs.scenario)
    as [r|e] eqn:H.
  - exists r. split; [reflexivity|].
    apply (X16_printed_ids_parse_back None JNull " 312,400 , 401,999"
             Inputs.scenario r H).
  - vm_compute in H. discriminate H.
Defined.

(* ------------------------------------------------------------------ *)
(** ** The reply of the text API *)

Lemma request_posted (jl : string -> outcome json) (E : env)
    (role lvl purpose : string) (s : app) :
  request_profile jl E role lvl purpose s =
  match requests_post E role lvl purpose with
  | Raise e => (Raise e, logged [Posted role lvl purpose] s)
  | Return (Raise e) => (Raise e, logged [Posted role lvl purpose] s)
  | Return (Return result) =>
      (match getitem result (KStr "content") with
       | Raise e => Raise e
       | Return content =>
           match getitem content (KInt 0) with
           | Raise e => Raise e
           | Return first =>
               match getitem first (KStr "text") with
               | Raise e => Raise e
               | Return text =>
                   match as_text text with
                   | Raise e => Raise e
                   | Return t => jl (cleaned t)
                   end
               end
           end
       end, logged [Posted role lvl purpose] s)
  end.
Proof.
  unfold request_profile, bind, lift. cbn [emit]. fold (logged [Posted role lvl purpose] s).
  destruct (requests_post E role lvl purpose) as [[result|e]|e]; try reflexivity.
  destruct (getitem result (KStr "content")) as [content|e]; [|reflexivity].
  destruct (getitem content (KInt 0)) as [first|e]; [|reflexivity].
  destruct (getitem first (KStr "text")) as [text|e]; [|reflexivity].
  destruct (as_text text) as [t|e]; reflexivity.
Qed.

Lemma profile_after_request (jl : string -> outcome json) (E : env)
    (role lvl purpose : string) (s s1 : app) (o : outcome json) :
  request_profile jl E role lvl purpose s = (o, logged [Posted role lvl purpose] s) ->
  generate_job_profile jl E role lvl purpose s =
  match o with
  | Return v => (Return v, logged [Posted role lvl purpose] s)
  | Raise e => (Return (fallback_profile role lvl purpose),
                logged [Posted role lvl purpose; fallback_warning e] s)
  end.
Proof.
  intros H. unfold generate_job_profile, try_except. rewrite H.
  destruct o as [v|e]; [reflexivity|].
  unfold bind, st_warning. cbn [emit ret].
  fold (fallback_warning e). unfold logged. cbn [session rng_pos trace].
  now rewrite <- app_assoc.
Qed.

(** X17: when the API answers with an object whose "content" entry is a
    list, whose first block is an object with a text under "text", the
    profile is what [json.loads] makes of the cleaned text, and nothing
    is shown; when [json.loads] rejects the text, the fallback profile is
    returned with the warning. *)
Theorem X17_profile_from_reply (jl : string -> outcome json) (E : env)
    (role lvl purpose : string) (s : app)
    (fields block_fields : list (string * json)) (blocks : list json) (text : string) :
  requests_post E role lvl purpose = Return (Return (JObj fields)) ->
  lookup "content" fields = Some (JArr (JObj block_fields :: blocks)) ->
  lookup "text" block_fields = Some (JStr text) ->
  generate_job_profile jl E role lvl purpose s =
  match jl (cleaned text) with
  | Return v => (Return v, logged [Posted role lvl purpose] s)
  | Raise e => (Return (fallback_profile role lvl purpose),
                logged [Posted role lvl purpose; fallback_warning e] s)
  end.
Proof.
  intros Hpost Hcontent Htext.
  apply (profile_after_request jl E role lvl purpose s s).
  rewrite request_posted, Hpost. cbn [getitem]. rewrite Hcontent.
  cbn [getitem nth_error]. rewrite Htext. reflexivity.
Qed.

(** X18: when the API answers with an object that has no "content" entry
    (the shape of its error replies), the generator returns the fallback
    profile and the warning names the missing key. *)
Theorem X18_reply_without_content (jl : string -> outcome json) (E : env)
    (role lvl purpose : string) (s : app) (fields : list (string * json)) :
  requests_post E role lvl purpose = Return (Return (JObj fields)) ->
  lookup "content" fields = None ->
  generate_job_profile jl E role lvl purpose s =
  (Return (fallback_profile role lvl purpose),
   logged [Posted role lvl purpose;
           Shown LWarning "Using fallback job profile. API error: 'content'"] s).
Proof.
  intros Hpost Hcontent.
  rewrite (profile_after_request jl E role lvl purpose s s (Raise (KeyError "content"))).
  - reflexivity.
  - rewrite request_posted, Hpost. cbn [getitem]. now rewrite Hcontent.
Qed.

Lemma X17_profile_from_reply_witness :
  fst (generate_job_profile Replies.braces_only (Replies.world Replies.good)
         "Data Analyst" "Middle" "answer questions" Inputs.fresh) = Return (JObj []).
Proof.
  rewrite (X17_profile_from_reply Replies.braces_only (Replies.world Replies.good)
             "Data Analyst" "Middle" "answer questions" Inputs.fresh
             [("content", JArr [JObj [("text", JStr Replies.fenced)]]);
              ("role", JStr "assistant")]
             [("text", JStr Replies.fenced)] [] Replies.fenced
             eq_refl eq_refl eq_refl).
  reflexivity.
Defined.

Lemma X18_reply_without_content_witness :
  fst (generate_job_profile Replies.braces_only (Replies.world Replies.unauthorized)
         "Data Analyst" "Middle" "answer questions" Inputs.fresh) =
  Return (fallback_profile "Data Analyst" "Middle" "answer questions").
Proof.
  rewrite (X18_reply_without_content Replies.braces_only
             (Replies.world Replies.unauthorized)
             "Data Analyst" "Middle" "answer questions" Inputs.fresh
             _ eq_refl eq_refl).
  reflexivity.
Defined.

(* ------------------------------------------------------------------ *)
(** ** The clean-up of the reply text *)

Lemma prefix_other_head (c d : ascii) (old s : string) :
  Ascii.eqb c d = false -> prefix (String d old) (String c s) = false.
Proof.
  intros H. cbn [prefix]. destruct (ascii_dec d c) as [->|_]; [|reflexivity].
  rewrite Ascii.eqb_refl in H. discriminate H.
Qed.

(** Text without the first character of [old] is copied as it is. *)
Lemma replace_from_plain (d : ascii) (old new body rest : string) :
  has_char d body = false ->
  Str.replace_from (String d old) new 0 (body ++ rest) =
  body ++ Str.replace_from (String d old) new 0 rest.
Proof.
  induction body as [|c body IH]; [reflexivity|].
  cbn [has_char]. intros H. apply orb_false_elim in H. destruct H as [Hc Hb].
  cbn [String.append Str.replace_from].
  rewrite (prefix_other_head c d old _ Hc). now rewrite (IH Hb).
Qed.

Lemma append_empty (s : string) : s ++ EmptyString = s.
Proof. induction s as [|c s IH]; [reflexivity|]. cbn. now rewrite IH. Qed.

Lemma prefix_of_empty (s : string) : prefix EmptyString s = true.
Proof. now destruct s. Qed.

Lemma fence_opened (rest : string) :
  Str.replace_from "```json" "" 0 ("```json" ++ rest) =
  Str.replace_from "```json" "" 0 rest.
Proof.
  assert (Hp : prefix "```json" ("```json" ++ rest) = true)
    by (cbn; apply prefix_of_empty).
  cbn [String.append] in *. cbn [Str.replace_from]. rewrite Hp. reflexivity.
Qed.

(** X19: a reply wrapped in a json code fence is unwrapped: for a body
    without backticks, cleaning the fenced body gives the body stripped
    of the white space at its ends; a text without backticks is only
    stripped. *)
Theorem X19_fences_removed (body : string) :
  has_char backtick body = false ->
  cleaned ("```json" ++ body ++ "```") = Str.strip body /\
  cleaned body = Str.strip body.
Proof.
  intros H. unfold cleaned, Str.replace. split.
  - rewrite (fence_opened (body ++ "```")).
    rewrite (replace_from_plain "`"%char "``json" "" body "```" H).
    change (Str.replace_from "```json" "" 0 "```") with "```".
    rewrite (replace_from_plain "`"%char "``" "" body "```" H).
    change (Str.replace_from "```" "" 0 "```") with EmptyString.
    now rewrite append_empty.
  - rewrite <- (append_empty body) at 1.
    rewrite (replace_from_plain "`"%char "``json" "" body "" H).
    cbn [Str.replace_from]. rewrite append_empty.
    rewrite <- (append_empty body) at 1.
    rewrite (replace_from_plain "`"%char "``" "" body "" H).
    cbn [Str.replace_from]. now rewrite append_empty.
Qed.

Lemma X19_fences_removed_witness :
  cleaned Replies.fenced = "{}".
Proof.
  destruct (X19_fences_removed " {} " eq_refl) as [H _].
  exact H.
Defined.

(* ------------------------------------------------------------------ *)
(** ** The three candidates at the head of the ranking *)

Lemma sum_app (h t : list Q) : (Num.sum (h ++ t) == Num.sum h + Num.sum t)%Q.
Proof.
  induction h as [|x h IH]; cbn [List.app].
  - change (Num.sum []) with 0%Q. ring.
  - rewrite !sum_cons, IH. ring.
Qed.

Lemma len_app {A} (h t : list A) : (Num.len (h ++ t) == Num.len h + Num.len t)%Q.
Proof.
  unfold Num.len. rewrite length_app, Nat2Z.inj_add, inject_Z_plus. reflexivity.
Qed.

Lemma sum_at_least (lo : Q) (l : list Q) :
  Forall (fun x => lo <= x)%Q l -> (lo * Num.len l <= Num.sum l)%Q.
Proof.
  induction 1 as [|x l Hx _ IH].
  - change (Num.sum []) with 0%Q. change (@Num.len Q []) with 0%Q. lra.
  - rewrite sum_cons, len_cons. lra.
Qed.

Lemma cross_sums (h t : list Q) :
  (forall x y, In x h -> In y t -> (y <= x)%Q) ->
  (Num.sum t * Num.len h <= Num.sum h * Num.len t)%Q.
Proof.
  intros H. induction t as [|y t IH].
  - change (Num.sum []) with 0%Q. change (@Num.len Q []) with 0%Q. lra.
  - rewrite sum_cons, len_cons.
    assert (Hy : (y * Num.len h <= Num.sum h)%Q).
    { apply sum_at_least, Forall_forall. intros x Hx. apply H; [exact Hx|now left]. }
    assert (IH' : (Num.sum t * Num.len h <= Num.sum h * Num.len t)%Q).
    { apply IH. intros x z Hx Hz. apply H; [exact Hx|now right]. }
    lra.
Qed.

Lemma mean_of_head (h t : list Q) :
  h <> [] ->
  (forall x y, In x h -> In y t -> (y <= x)%Q) ->
  (mean (h ++ t) <= mean h)%Q.
Proof.
  intros Hne H. unfold mean. rewrite sum_app, len_app.
  pose proof (len_positive h Hne) as Hh. pose proof (len_nonneg t) as Ht.
  pose proof (cross_sums h t H) as Hc.
  apply Qle_shift_div_r; [lra|].
  setoid_replace (Num.sum h / Num.len h * (Num.len h + Num.len t))%Q
    with (Num.sum h + Num.sum h * Num.len t / Num.len h)%Q by (field; lra).
  assert (Hq : (Num.sum t <= Num.sum h * Num.len t / Num.len h)%Q)
    by (apply Qle_shift_div_l; assumption).
  lra.
Qed.

Lemma head_dominates (l : list ranked) (k : nat) :
  StronglySorted not_below l ->
  forall x y, In x (firstn k l) -> In y (skipn k l) -> not_below x y.
Proof.
  intros Hs. revert k. induction Hs as [|a l Hs IH Hall]; intros k x y Hx Hy.
  - rewrite firstn_nil in Hx. destruct Hx.
  - destruct k as [|k]; [destruct Hx|].
    cbn [firstn skipn] in Hx, Hy. destruct Hx as [<-|Hx].
    + rewrite Forall_forall in Hall. apply Hall.
      rewrite <- (firstn_skipn k l). apply in_or_app. now right.
    + exact (IH k x y Hx Hy).
Qed.

(** X20: the mean of the rates of the three candidates at the head of
    the stored ranking (the rows the summary averages) is never below
    the mean of the rates of all candidates. *)
Theorem X20_top_three_mean_not_below (vid : option string) (jp : json)
    (ids : list string) (df : list row) (r : results) :
  analyse vid jp ids df = Return r ->
  top_3_candidates r <> [] /\
  (mean (map rate (talent_df r)) <= mean (map rate (top_3_candidates r)))%Q.
Proof.
  intros H. destruct (analyse_stats _ _ _ _ _ H) as (Ht & _ & Ha & _).
  assert (Hne : talent_df r <> []).
  { intros Hnil. unfold avg_match_of in Ha. rewrite Hnil in Ha. discriminate Ha. }
  assert (Hhead : top_3_candidates r <> []).
  { unfold top_3_candidates. destruct (talent_df r); [congruence|discriminate]. }
  split; [exact Hhead|].
  assert (Hs : StronglySorted not_below (talent_df r)).
  { rewrite Ht. apply Sorted_StronglySorted; [exact not_below_transitive|].
    apply sort_values_sorted. }
  unfold top_3_candidates in *.
  rewrite <- (firstn_skipn 3 (talent_df r)) at 1. rewrite map_app.
  apply mean_of_head.
  - intros Hm. apply map_eq_nil in Hm. contradiction.
  - intros x y Hx Hy. apply in_map_iff in Hx. apply in_map_iff in Hy.
    destruct Hx as (a & <- & Hain). destruct Hy as (b & <- & Hbin).
    exact (head_dominates _ 3 Hs a b Hain Hbin).
Qed.

Lemma X20_top_three_mean_not_below_witness :
  exists r,
    analyse None JNull ["312"] Inputs.scenario = Return r /\
    (mean (map rate (talent_df r)) <= mean (map rate (top_3_candidates r)))%Q.
Proof.
  destruct (analyse None JNull ["312"] Inputs.scenario) as [r|e] eqn:H.
  - exists r. split; [reflexivity|].
    exact (proj2 (X20_top_three_mean_not_below None JNull ["312"] Inputs.scenario r H)).
  - vm_compute in H. discriminate H.
Defined.

(* ------------------------------------------------------------------ *)
(** ** Empty collections of rates *)



